(** * RobustTuyaRoonController: a shallow embedding of tuya_roon_robust.py

    The controller object is a record of its instance attributes; every
    method is a function in a state-and-exception monad over that record.
    The collaborators that are not part of the repository (the Roon API
    client, the MQTT client, the clock, the file system) answer through a
    [world]: one oracle per primitive, indexed by the number of primitive
    interactions performed so far ([tick]).  Calls issued to the control
    service and to the transport, and every [time.sleep], are appended to
    [trace].  Console output ([print]) is not part of the model, and neither
    are the web routes, [setup_mqtt] and the service loops. *)

From Stdlib Require Import ZArith List String Ascii Bool Lia DecimalString.
Import ListNotations.
Open Scope Z_scope.
Open Scope string_scope.

(** ** Python values *)

(** The values that flow through the dynamically typed parts of the program:
    the results handed back by [robust_roon_command] and the records decoded
    from MQTT payloads. *)
#[warnings="-register-all"]
Inductive pyval : Type :=
| PyNone
| PyBool (b : bool)
| PyInt (n : Z)
| PyStr (s : string)
| PyList (items : list pyval)
| PyDict (fields : list (string * pyval)).

(** Truth value testing ([if x:], [not x]). *)
Definition py_truthy (v : pyval) : bool :=
  match v with
  | PyNone => false
  | PyBool b => b
  | PyInt n => negb (Z.eqb n 0)
  | PyStr s => negb (String.eqb s "")
  | PyList l => match l with [] => false | _ => true end
  | PyDict d => match d with [] => false | _ => true end
  end.

(** [needle in hay] on two [str]: substring test. *)
Fixpoint py_str_in (needle hay : string) : bool :=
  String.prefix needle hay ||
  match hay with
  | EmptyString => false
  | String _ rest => py_str_in needle rest
  end.

(** Truthiness of an attribute that holds [None] or a [str]. *)
Definition str_truthy (o : option string) : bool :=
  match o with
  | Some s => negb (String.eqb s "")
  | None => false
  end.

(** ** Collaborator data *)

(** [roonapi.outputs]: insertion-ordered dict output_id -> info; only the
    optional ['display_name'] entry of the info is read. *)
Record output_info := { display_name : option string }.
Definition outputs_t := list (string * output_info).

(** [roonapi.zones]: dict zone_id -> info with optional ['state'] and the
    output ids listed under ['outputs']. *)
Record zone_info := { zone_state : option string; zone_outputs : list string }.
Definition zones_t := list (string * zone_info).

(** The settings record ([self.config]), with the types of [default_config]. *)
Record settings := {
  zone_id : option string;
  zone_name : option string;
  volume : Z;
  volume_step : Z;
  mqtt_broker : string;
  mqtt_port : Z;
  tuya_knob_topic : string }.

Definition default_config : settings :=
  {| zone_id := None; zone_name := Some "Default"; volume := 15;
     volume_step := 5; mqtt_broker := "localhost"; mqtt_port := 1883;
     tuya_knob_topic := "zigbee2mqtt/TuyaKnob" |}.

(** ** Effects *)

Inductive event : Type :=
| EvSleep (seconds : Z)
| EvRoonApiNew
| EvGetVolumePercent (output_id : string)
| EvSetVolumePercent (output_id : string) (percent : Z)
| EvPlaybackControl (zone : string) (verb : string)
| EvMqttReconnect.

Inductive outcome (A : Type) : Type :=
| Ret (a : A)
| Exc.
Arguments Ret {A} a.
Arguments Exc {A}.

(** What the outside answers at each interaction. *)
Record world := {
  w_time : nat -> Z;
  w_roon_api_new : nat -> bool;
  w_zones : nat -> outcome (option zones_t);
  w_outputs : nat -> outcome (option outputs_t);
  w_token_write : nat -> bool;
  w_get_volume_percent : nat -> string -> outcome (option Z);
  w_set_volume_percent : nat -> string -> Z -> bool;
  w_playback_control : nat -> string -> string -> bool;
  w_mqtt_reconnect : nat -> bool }.

(** The instance attributes read or written by the modelled methods, with the
    interaction counter and the trace. *)
Record controller := mkController {
  roonapi : option nat;
  zone_output_id : option string;
  config : settings;
  mqtt_connected : bool;
  roon_connection_healthy : bool;
  last_successful_command : Z;
  knob_battery : pyval;
  knob_last_seen : option Z;
  knob_voltage : pyval;
  knob_linkquality : pyval;
  tick : nat;
  trace : list event }.

Definition set_roonapi (h : option nat) (c : controller) : controller :=
  mkController h (zone_output_id c) (config c) (mqtt_connected c)
    (roon_connection_healthy c) (last_successful_command c) (knob_battery c)
    (knob_last_seen c) (knob_voltage c) (knob_linkquality c) (tick c) (trace c).

Definition set_zone_output_id (z : option string) (c : controller) : controller :=
  mkController (roonapi c) z (config c) (mqtt_connected c)
    (roon_connection_healthy c) (last_successful_command c) (knob_battery c)
    (knob_last_seen c) (knob_voltage c) (knob_linkquality c) (tick c) (trace c).

Definition set_mqtt_connected (b : bool) (c : controller) : controller :=
  mkController (roonapi c) (zone_output_id c) (config c) b
    (roon_connection_healthy c) (last_successful_command c) (knob_battery c)
    (knob_last_seen c) (knob_voltage c) (knob_linkquality c) (tick c) (trace c).

Definition set_roon_connection_healthy (b : bool) (c : controller) : controller :=
  mkController (roonapi c) (zone_output_id c) (config c) (mqtt_connected c)
    b (last_successful_command c) (knob_battery c)
    (knob_last_seen c) (knob_voltage c) (knob_linkquality c) (tick c) (trace c).

Definition set_last_successful_command (t : Z) (c : controller) : controller :=
  mkController (roonapi c) (zone_output_id c) (config c) (mqtt_connected c)
    (roon_connection_healthy c) t (knob_battery c)
    (knob_last_seen c) (knob_voltage c) (knob_linkquality c) (tick c) (trace c).

Definition set_knob_battery (v : pyval) (c : controller) : controller :=
  mkController (roonapi c) (zone_output_id c) (config c) (mqtt_connected c)
    (roon_connection_healthy c) (last_successful_command c) v
    (knob_last_seen c) (knob_voltage c) (knob_linkquality c) (tick c) (trace c).

Definition set_knob_last_seen (t : option Z) (c : controller) : controller :=
  mkController (roonapi c) (zone_output_id c) (config c) (mqtt_connected c)
    (roon_connection_healthy c) (last_successful_command c) (knob_battery c)
    t (knob_voltage c) (knob_linkquality c) (tick c) (trace c).

Definition set_knob_voltage (v : pyval) (c : controller) : controller :=
  mkController (roonapi c) (zone_output_id c) (config c) (mqtt_connected c)
    (roon_connection_healthy c) (last_successful_command c) (knob_battery c)
    (knob_last_seen c) v (knob_linkquality c) (tick c) (trace c).

Definition set_knob_linkquality (v : pyval) (c : controller) : controller :=
  mkController (roonapi c) (zone_output_id c) (config c) (mqtt_connected c)
    (roon_connection_healthy c) (last_successful_command c) (knob_battery c)
    (knob_last_seen c) (knob_voltage c) v (tick c) (trace c).

(** One more interaction with the outside. *)
Definition next_tick (c : controller) : controller :=
  mkController (roonapi c) (zone_output_id c) (config c) (mqtt_connected c)
    (roon_connection_healthy c) (last_successful_command c) (knob_battery c)
    (knob_last_seen c) (knob_voltage c) (knob_linkquality c) (S (tick c)) (trace c).

Definition record_event (e : event) (c : controller) : controller :=
  mkController (roonapi c) (zone_output_id c) (config c) (mqtt_connected c)
    (roon_connection_healthy c) (last_successful_command c) (knob_battery c)
    (knob_last_seen c) (knob_voltage c) (knob_linkquality c) (tick c)
    (trace c ++ [e]).

(** ** The monad: state passing, with exceptions that keep the state *)

Definition M (A : Type) : Type := controller -> outcome A * controller.

Definition ret {A} (a : A) : M A := fun c => (Ret a, c).
Definition raise {A} : M A := fun c => (Exc, c).
Definition bind {A B} (m : M A) (k : A -> M B) : M B :=
  fun c => match m c with
           | (Ret a, c') => k a c'
           | (Exc, c') => (Exc, c')
           end.
(** [try: body except Exception: handler] *)
Definition try_except {A} (body handler : M A) : M A :=
  fun c => match body c with
           | (Ret a, c') => (Ret a, c')
           | (Exc, c') => handler c'
           end.
Definition gets {A} (f : controller -> A) : M A := fun c => (Ret (f c), c).
Definition modify (f : controller -> controller) : M unit := fun c => (Ret tt, f c).

Declare Scope py_scope.
Delimit Scope py_scope with py.
Notation "x <- m ;; k" := (bind m (fun x => k))
  (at level 61, m at next level, right associativity) : py_scope.
Notation "m ;; k" := (bind m (fun _ => k))
  (at level 61, right associativity) : py_scope.
Open Scope py_scope.

Section Controller.

Variable w : world.

(** *** Primitives *)

(** Ask an oracle for its answer at the current tick. *)
Definition consult {A} (oracle : world -> nat -> A) : M A :=
  fun c => (Ret (oracle w (tick c)), next_tick c).

(** A collaborator call that may raise. *)
Definition consult_or_raise {A} (oracle : world -> nat -> outcome A) : M A :=
  r <- consult oracle ;;
  match r with
  | Ret a => ret a
  | Exc => raise
  end.

(** A collaborator call with no result that may raise. *)
Definition perform (oracle : world -> nat -> bool) : M unit :=
  ok <- consult oracle ;;
  if ok then ret tt else raise.

Definition time_time : M Z := consult w_time.
Definition time_sleep (seconds : Z) : M unit := modify (record_event (EvSleep seconds)).

(** [self.roonapi.zones] and [self.roonapi.outputs] *)
Definition roonapi_zones : M (option zones_t) := consult_or_raise w_zones.
Definition roonapi_outputs : M (option outputs_t) := consult_or_raise w_outputs.

(** [self.roonapi.get_volume_percent(output_id)] *)
Definition roonapi_get_volume_percent (output_id : string) : M (option Z) :=
  modify (record_event (EvGetVolumePercent output_id)) ;;
  consult_or_raise (fun w t => w_get_volume_percent w t output_id).

(** [self.roonapi.set_volume_percent(output_id, percent)] *)
Definition roonapi_set_volume_percent (output_id : string) (percent : Z) : M unit :=
  modify (record_event (EvSetVolumePercent output_id percent)) ;;
  perform (fun w t => w_set_volume_percent w t output_id percent).

(** [self.roonapi.playback_control(zone, verb)] *)
Definition roonapi_playback_control (zone verb : string) : M unit :=
  modify (record_event (EvPlaybackControl zone verb)) ;;
  perform (fun w t => w_playback_control w t zone verb).

(** [client.reconnect()] *)
Definition mqtt_reconnect : M unit :=
  modify (record_event EvMqttReconnect) ;;
  perform w_mqtt_reconnect.

(** *** setup_roon (lines 145-253) *)

(** Lines 150-177: read the ini file and the token, build the [RoonApi]
    object and store it in [self.roonapi].  Anything raised here happens
    before the assignment. *)
Definition roon_api_new : M unit :=
  t <- gets tick ;;
  perform w_roon_api_new ;;
  modify (record_event EvRoonApiNew) ;;
  modify (set_roonapi (Some t)).

Definition max_wait_time : Z := 300.
Definition check_interval : Z := 5.

(** Lines 186-248: [while waited_time < max_wait_time], where every pass that
    does not return adds [check_interval] to [waited_time]; [polls] is the
    number of passes left, 300 / 5 at the start. *)
Fixpoint wait_for_authorization (polls : nat) : M bool :=
  match polls with
  | O =>
      modify (set_roon_connection_healthy false) ;;
      ret false
  | S polls' =>
      authorized <-
        try_except
          (zones <- roonapi_zones ;;
           outputs <- roonapi_outputs ;;
           match zones, outputs with
           | Some _, Some _ =>
               perform w_token_write ;;
               modify (set_roon_connection_healthy true) ;;
               ret true
           | _, _ =>
               time_sleep check_interval ;;
               ret false
           end)
          (time_sleep check_interval ;;
           ret false) ;;
      if authorized : bool then ret true else wait_for_authorization polls'
  end.

Definition setup_roon : M bool :=
  try_except
    (roon_api_new ;;
     wait_for_authorization (Z.to_nat (max_wait_time / check_interval)))
    (modify (set_roon_connection_healthy false) ;;
     ret false).

(** *** robust_roon_command (lines 111-143) *)

(** Lines 127-130. *)
Definition run_command (command_func : M pyval) : M (option pyval) :=
  result <- command_func ;;
  now <- time_time ;;
  modify (set_last_successful_command now) ;;
  modify (set_roon_connection_healthy true) ;;
  ret (Some result).

(** One pass of the [for] loop: [Some v] is [return v], [None] goes on to the
    next pass. *)
Definition robust_attempt (command_func : M pyval) (max_retries attempt : nat)
  : M (option pyval) :=
  try_except
    (api <- gets roonapi ;;
     match api with
     | None =>
         connected <- setup_roon ;;
         if connected : bool then run_command command_func
         else if (attempt <? max_retries - 1)%nat then
                time_sleep 3 ;;
                ret None
              else
                modify (set_roon_connection_healthy false) ;;
                ret (Some (PyBool false))
     | Some _ => run_command command_func
     end)
    (if (attempt <? max_retries - 1)%nat then
       time_sleep 2 ;;
       setup_roon ;;
       ret None
     else
       modify (set_roon_connection_healthy false) ;;
       ret None).

(** [for attempt in range(max_retries)], with [todo] passes left. *)
Fixpoint robust_loop (command_func : M pyval) (max_retries todo : nat) : M pyval :=
  match todo with
  | O => ret (PyBool false)
  | S todo' =>
      r <- robust_attempt command_func max_retries (max_retries - todo) ;;
      match r with
      | Some v => ret v
      | None => robust_loop command_func max_retries todo'
      end
  end.

Definition robust_roon_command (command_func : M pyval) (max_retries : nat) : M pyval :=
  robust_loop command_func max_retries max_retries.

(** *** find_zone_output_id (lines 255-299) *)

(** [zone_id in outputs] *)
Definition output_known (output_id : string) (outputs : outputs_t) : bool :=
  existsb (fun o => String.eqb output_id (fst o)) outputs.

(** [zone_name == display_name or zone_name in display_name], with
    [display_name = output_info.get('display_name', '')]. *)
Definition name_matches (zone_name : string) (info : output_info) : bool :=
  let shown := match display_name info with Some d => d | None => "" end in
  String.eqb zone_name shown || py_str_in zone_name shown.

(** Lines 263-281 of [_find_zone], on the enumerated outputs. *)
Definition lookup_zone (zone_id zone_name : option string) (outputs : outputs_t)
  : option string :=
  let by_name :=
    match zone_name with
    | Some name =>
        if str_truthy zone_name then
          match find (fun o => name_matches name (snd o)) outputs with
          | Some (output_id, _) => Some output_id
          | None => None
          end
        else None
    | None => None
    end in
  match zone_id with
  | Some id =>
      if str_truthy zone_id && output_known id outputs then Some id else by_name
  | None => by_name
  end.

Definition py_of_output_id (o : option string) : pyval :=
  match o with
  | Some id => PyStr id
  | None => PyNone
  end.

(** The closure [_find_zone]; with [outputs] being [None] both the membership
    test and [.items()] raise. *)
Definition _find_zone (zone_id zone_name : option string) : M pyval :=
  api <- gets roonapi ;;
  match api with
  | None => ret PyNone
  | Some _ =>
      outputs <- roonapi_outputs ;;
      match outputs with
      | Some outs => ret (py_of_output_id (lookup_zone zone_id zone_name outs))
      | None => raise
      end
  end.

(** A truthy result of [_find_zone] is an output id. *)
Definition as_output_id (v : pyval) : option string :=
  match v with
  | PyStr id => Some id
  | _ => None
  end.

Fixpoint find_zone_loop (zone_id zone_name : option string) (retries : nat)
    (wait_time : Z) (todo : nat) : M (option string) :=
  match todo with
  | O => ret None
  | S todo' =>
      let attempt := (retries - todo)%nat in
      result <- robust_roon_command (_find_zone zone_id zone_name) 3 ;;
      if py_truthy result then ret (as_output_id result)
      else if (attempt <? retries - 1)%nat then
             time_sleep wait_time ;;
             find_zone_loop zone_id zone_name retries wait_time todo'
           else ret None
  end.

Definition find_zone_output_id (zone_id zone_name : option string)
    (retries : nat) (wait_time : Z) : M (option string) :=
  find_zone_loop zone_id zone_name retries wait_time retries.

(** Lines 1102-1107 of [run_service_mode]: the one place, with lines
    1049-1052, where [self.zone_output_id] is assigned. *)
Definition bind_configured_zone : M unit :=
  cfg <- gets config ;;
  found <- find_zone_output_id (zone_id cfg) (zone_name cfg) 3 1 ;;
  modify (set_zone_output_id found).

(** *** get_current_volume, set_volume, change_volume (lines 321-362) *)

Definition py_of_volume (v : option Z) : pyval :=
  match v with
  | Some n => PyInt n
  | None => PyNone
  end.

Definition _get_volume : M pyval :=
  zone <- gets zone_output_id ;;
  api <- gets roonapi ;;
  match zone, api with
  | Some output_id, Some _ =>
      if str_truthy zone then
        try_except
          (volume <- roonapi_get_volume_percent output_id ;;
           ret (py_of_volume volume))
          (ret PyNone)
      else ret PyNone
  | _, _ => ret PyNone
  end.

Definition get_current_volume : M pyval :=
  robust_roon_command _get_volume 3.

(** [max(0, min(100, v))] *)
Definition clamp_percent (v : Z) : Z := Z.max 0 (Z.min 100 v).

Definition _set_volume (volume_percent : Z) : M pyval :=
  zone <- gets zone_output_id ;;
  api <- gets roonapi ;;
  match zone, api with
  | Some output_id, Some _ =>
      if str_truthy zone then
        let volume_percent_clamped := clamp_percent volume_percent in
        try_except
          (roonapi_set_volume_percent output_id volume_percent_clamped ;;
           ret (PyBool true))
          (ret (PyBool false))
      else ret (PyBool false)
  | _, _ => ret (PyBool false)
  end.

Definition set_volume (volume_percent : Z) : M pyval :=
  robust_roon_command (_set_volume volume_percent) 3.

(** [current + delta] with an [int] on the right: [bool] is a subclass of
    [int]; the other types raise [TypeError]. *)
Definition py_add_int (v : pyval) (delta : Z) : M Z :=
  match v with
  | PyInt n => ret (n + delta)
  | PyBool b => ret (Z.b2z b + delta)
  | _ => raise
  end.

Definition change_volume (delta : Z) : M bool :=
  current <- get_current_volume ;;
  match current with
  | PyNone => ret false
  | _ =>
      sum <- py_add_int current delta ;;
      let new_volume := clamp_percent sum in
      done <- set_volume new_volume ;;
      if py_truthy done then ret true else ret false
  end.

(** *** toggle_playback (lines 364-418) *)

Definition zone_has_output (output_id : string) (z : string * zone_info) : bool :=
  existsb (String.eqb output_id) (zone_outputs (snd z)).

Definition _toggle_playback : M pyval :=
  zone <- gets zone_output_id ;;
  api <- gets roonapi ;;
  match zone, api with
  | Some output_id, Some _ =>
      if str_truthy zone then
        zones <- roonapi_zones ;;
        match zones with
        | None => raise
        | Some zs =>
            match find (zone_has_output output_id) zs with
            | Some (current_zone_id, current_zone) =>
                if negb (String.eqb current_zone_id "") then
                  let state := match zone_state current_zone with
                               | Some s => s
                               | None => "stopped"
                               end in
                  try_except
                    ((if String.eqb state "playing"
                      then roonapi_playback_control current_zone_id "pause"
                      else roonapi_playback_control current_zone_id "play") ;;
                     ret (PyBool true))
                    (try_except
                       (roonapi_playback_control current_zone_id "playpause" ;;
                        ret (PyBool true))
                       (ret (PyBool false)))
                else ret (PyBool false)
            | None => ret (PyBool false)
            end
        end
      else ret (PyBool false)
  | _, _ => ret (PyBool false)
  end.

Definition toggle_playback : M unit :=
  robust_roon_command _toggle_playback 3 ;;
  ret tt.

(** *** handle_knob_action (lines 507-528) *)

(** [action == 'literal'] *)
Definition py_eq_str (v : pyval) (literal : string) : bool :=
  match v with
  | PyStr s => String.eqb s literal
  | _ => false
  end.

Definition handle_knob_action (action : pyval) : M unit :=
  zone <- gets zone_output_id ;;
  if negb (str_truthy zone) then ret tt
  else if py_eq_str action "rotate_left" then
    step <- gets (fun c => volume_step (config c)) ;;
    change_volume (- step) ;;
    ret tt
  else if py_eq_str action "rotate_right" then
    step <- gets (fun c => volume_step (config c)) ;;
    change_volume step ;;
    ret tt
  else if py_eq_str action "single" then toggle_playback
  else if py_eq_str action "double" then
    set_volume 50 ;;
    ret tt
  else if py_eq_str action "hold" then
    set_volume 0 ;;
    ret tt
  else ret tt.

(** *** on_mqtt_disconnect (lines 459-471) *)

Definition on_mqtt_disconnect (reason_code : Z) : M unit :=
  modify (set_mqtt_connected false) ;;
  if negb (Z.eqb reason_code 0) then
    try_except
      (time_sleep 2 ;;
       mqtt_reconnect)
      (ret tt)
  else ret tt.

(** *** on_mqtt_message (lines 482-505) *)

(** [key in container] *)
Definition py_contains (key : string) (container : pyval) : M bool :=
  match container with
  | PyDict d => ret (existsb (fun kv => String.eqb key (fst kv)) d)
  | PyStr s => ret (py_str_in key s)
  | PyList l => ret (existsb (fun v => py_eq_str v key) l)
  | _ => raise
  end.

(** [container[key]] with a [str] key *)
Definition py_getitem (container : pyval) (key : string) : M pyval :=
  match container with
  | PyDict d =>
      match find (fun kv => String.eqb key (fst kv)) d with
      | Some (_, v) => ret v
      | None => raise
      end
  | _ => raise
  end.

(** [if key in payload: store(payload[key])] *)
Definition when_present (key : string) (payload : pyval) (store : pyval -> M unit)
  : M unit :=
  present <- py_contains key payload ;;
  if present : bool then
    v <- py_getitem payload key ;;
    store v
  else ret tt.

(** [msg_payload] is the raw payload; [json_loads] stands for
    [json.loads(msg.payload.decode())], which raises on bytes that are not
    UTF-8 or not JSON.  The body is written over the method [dispatch] it
    hands the action to, which is [self.handle_knob_action]. *)
Definition on_mqtt_message_with (dispatch : pyval -> M unit)
    (json_loads : string -> outcome pyval) (msg_payload : string) : M unit :=
  try_except
    (payload <- (match json_loads msg_payload with
                 | Ret v => ret v
                 | Exc => raise
                 end) ;;
     now <- time_time ;;
     modify (set_knob_last_seen (Some now)) ;;
     when_present "battery" payload (fun v => modify (set_knob_battery v)) ;;
     when_present "voltage" payload (fun v => modify (set_knob_voltage v)) ;;
     when_present "linkquality" payload (fun v => modify (set_knob_linkquality v)) ;;
     when_present "action" payload dispatch)
    (ret tt).

Definition on_mqtt_message : (string -> outcome pyval) -> string -> M unit :=
  on_mqtt_message_with handle_knob_action.

End Controller.

(** ** save_config_dict (lines 101-109) *)

Section Persistence.

(** The text [json.dump(config_dict, f, indent=2)] sends to the file. *)
Variable json_dump : settings -> string.

(** How the file system answers one save. *)
Inductive write_result : Type :=
| OpenRaises
| WriteRaises (written : nat)
| WriteCompletes.

(** The file is [None] when it does not exist.  [open(filename, 'w')]
    creates or truncates the file before anything is written; a failure
    while dumping or closing leaves the characters that reached it. *)
Definition save_config_dict (fs : write_result) (config_dict : settings)
    (file : option string) : bool * option string :=
  match fs with
  | OpenRaises => (false, file)
  | WriteRaises written =>
      (false, Some (String.substring 0 written (json_dump config_dict)))
  | WriteCompletes => (true, Some (json_dump config_dict))
  end.

(** The spec's wording: the save succeeds completely or the previously
    persisted content is left intact. *)
Definition save_is_atomic (fs : write_result) (config_dict : settings)
    (file : option string) : Prop :=
  let '(ok, file') := save_config_dict fs config_dict file in
  (ok = true /\ file' = Some (json_dump config_dict)) \/ file' = file.

End Persistence.

(** ** More of the controller *)

Section MoreMethods.

Variable w : world.

(** *** get_zones (lines 301-319) *)




(** *** run_service_mode (lines 1092-1162) *)


End MoreMethods.

(** ** load_config (lines 66-95) *)

(** [default_config] as the dict the method builds, in insertion order. *)
Definition dict_of_settings (cfg : settings) : list (string * pyval) :=
  [("zone_id", py_of_output_id (zone_id cfg));
   ("zone_name", py_of_output_id (zone_name cfg));
   ("volume", PyInt (volume cfg));
   ("volume_step", PyInt (volume_step cfg));
   ("mqtt_broker", PyStr (mqtt_broker cfg));
   ("mqtt_port", PyInt (mqtt_port cfg));
   ("tuya_knob_topic", PyStr (tuya_knob_topic cfg))].

(** [key in config] outside the controller monad. *)
Definition py_has_key (key : string) (container : pyval) : outcome bool :=
  match container with
  | PyDict d => Ret (existsb (fun kv => String.eqb key (fst kv)) d)
  | PyStr s => Ret (py_str_in key s)
  | PyList l => Ret (existsb (fun v => py_eq_str v key) l)
  | _ => Exc
  end.

(** [config[key] = value] for a key that is not in [config]: a dict gets the
    entry at its end; a list or a string raises [TypeError]. *)
Definition py_set_new_key (container : pyval) (key : string) (value : pyval)
  : outcome pyval :=
  match container with
  | PyDict d => Ret (PyDict (d ++ [(key, value)]))
  | _ => Exc
  end.

(** Lines 85-87: [for key, value in default_config.items(): if key not in
    config: config[key] = value]. *)
Fixpoint merge_defaults (defaults : list (string * pyval)) (config : pyval)
  : outcome pyval :=
  match defaults with
  | [] => Ret config
  | (key, value) :: more =>
      match py_has_key key config with
      | Exc => Exc
      | Ret true => merge_defaults more config
      | Ret false =>
          match py_set_new_key config key value with
          | Exc => Exc
          | Ret config' => merge_defaults more config'
          end
      end
  end.

Section Loading.

(** [json.load(f)] on the text of the file and [json.dump]'s text. *)
Variable json_load : string -> outcome pyval.
Variable json_dump : settings -> string.

(** [file] is the content of the config file, [None] when it does not exist;
    [readable] tells whether [open(config_file, 'r')] succeeds and [fs] how
    the file system answers the save of the defaults.  The result is the
    configuration returned and the file left behind. *)
Definition load_config (readable : bool) (fs : write_result)
    (file : option string) : pyval * option string :=
  let defaults := PyDict (dict_of_settings default_config) in
  match file with
  | Some text =>
      if readable then
        match json_load text with
        | Ret config =>
            match merge_defaults (dict_of_settings default_config) config with
            | Ret merged => (merged, file)
            | Exc => (defaults, file)
            end
        | Exc => (defaults, file)
        end
      else (defaults, file)
  | None =>
      (defaults, snd (save_config_dict json_dump fs default_config file))
  end.

End Loading.

(** * Vocabulary of the statements *)

(** Every run of [m] relates the state it starts from to the one it ends in. *)
Definition steps (R : controller -> controller -> Prop) {A} (m : M A) : Prop :=
  forall c o c', m c = (o, c') -> R c c'.

(** The trace only grows, and by events that satisfy [P]. *)
Definition trace_grows_by (P : event -> Prop) (c c' : controller) : Prop :=
  exists added, trace c' = (trace c ++ added)%list /\ Forall P added.

(** A [set_volume_percent] call carries a percentage between 0 and 100. *)
Definition clamped_event (e : event) : Prop :=
  match e with
  | EvSetVolumePercent _ percent => 0 <= percent <= 100
  | _ => True
  end.

Definition not_set_volume (e : event) : Prop :=
  match e with
  | EvSetVolumePercent _ _ => False
  | _ => True
  end.

(** [self.roonapi], once set, stays set. *)
Definition keeps_api (c c' : controller) : Prop :=
  roonapi c <> None -> roonapi c' <> None.

(** The bound zone and the settings are left alone. *)
Definition keeps_binding (c c' : controller) : Prop :=
  zone_output_id c' = zone_output_id c /\ config c' = config c.

Definition never_raises {A} (m : M A) : Prop :=
  forall c, fst (m c) <> Exc.

(** The state [robust_roon_command] leaves after [command_func] returned in
    state [c] (lines 128-129). *)
Definition mark_success (w : world) (c : controller) : controller :=
  set_roon_connection_healthy true
    (set_last_successful_command (w_time w (tick c)) (next_tick c)).

(** The state in which the next attempt starts after [command_func] raised in
    state [c] with attempts left (lines 136-138). *)
Definition after_failed_attempt (w : world) (c : controller) : controller :=
  snd ((time_sleep 2 ;; setup_roon w) c).

(** The spec's wording for a name match: the display name of the output
    equals the wanted name or contains it as a substring. *)
Definition shown_name (info : output_info) : string :=
  match display_name info with
  | Some d => d
  | None => ""
  end.

Definition matches_name (name : string) (info : output_info) : Prop :=
  name = shown_name info \/
  exists before after, shown_name info = before ++ name ++ after.

(** The identifier argument is set and is a key of the enumerated outputs. *)
Definition id_usable (zone_id : option string) (outputs : outputs_t) : Prop :=
  exists id, zone_id = Some id /\ id <> "" /\ In id (map fst outputs).

(** A bound zone comes with an API object: the state of the program whenever
    a knob event is handled. *)
Definition bound_zone_has_api (c : controller) : Prop :=
  str_truthy (zone_output_id c) = true -> roonapi c <> None.

(** A decoded payload that is not a JSON object. *)
Definition not_a_record (payload : pyval) : Prop :=
  match payload with
  | PyDict _ => False
  | _ => True
  end.

(** * Scenarios *)

(** The controller right after [__init__] (lines 38-51). *)
Definition fresh_controller : controller :=
  mkController None None default_config false false 0
    PyNone None PyNone PyNone 0 [].

Definition kitchen_outputs : outputs_t :=
  [("o1", {| display_name := Some "Kitchen Display" |});
   ("o2", {| display_name := Some "Kitchen" |})].

Definition kitchen_zones : zones_t :=
  [("z1", {| zone_state := Some "playing"; zone_outputs := ["o1"; "o2"] |})].

(** A world in which building the API object raises before tick [api_from],
    the outputs are [None] before tick [outputs_from], the volume read
    answers [vol], and every other call goes through. *)
Definition scripted_world (api_from outputs_from : nat) (vol : option Z) : world :=
  {| w_time := fun t => 1000 + Z.of_nat t;
     w_roon_api_new := fun t => (api_from <=? t)%nat;
     w_zones := fun _ => Ret (Some kitchen_zones);
     w_outputs := fun t => if (outputs_from <=? t)%nat
                           then Ret (Some kitchen_outputs) else Ret None;
     w_token_write := fun _ => true;
     w_get_volume_percent := fun _ _ => Ret vol;
     w_set_volume_percent := fun _ _ _ => true;
     w_playback_control := fun _ _ _ => true;
     w_mqtt_reconnect := fun _ => true |}.

(** A controller with an API object and output [o2] bound. *)
Definition kitchen_controller : controller :=
  set_zone_output_id (Some "o2") (set_roonapi (Some 0%nat) fresh_controller).

(** A controller with output [o2] bound and no API object. *)
Definition detached_controller : controller :=
  set_zone_output_id (Some "o2") fresh_controller.


(** The text of [json.dump(config_dict, f, indent=2)] for settings whose
    strings need no escaping, as is the case of [default_config]. *)
Definition double_quote : string := String (ascii_of_nat 34) "".
Definition newline : string := String (ascii_of_nat 10) "".

Definition json_string (s : string) : string := double_quote ++ s ++ double_quote.

Definition json_optional_string (o : option string) : string :=
  match o with
  | Some s => json_string s
  | None => "null"
  end.

Definition json_int (n : Z) : string := NilZero.string_of_int (Z.to_int n).

Definition json_member (key value : string) : string :=
  "  " ++ json_string key ++ ": " ++ value.

Definition json_dump_plain (cfg : settings) : string :=
  "{" ++ newline ++
  json_member "zone_id" (json_optional_string (zone_id cfg)) ++ "," ++ newline ++
  json_member "zone_name" (json_optional_string (zone_name cfg)) ++ "," ++ newline ++
  json_member "volume" (json_int (volume cfg)) ++ "," ++ newline ++
  json_member "volume_step" (json_int (volume_step cfg)) ++ "," ++ newline ++
  json_member "mqtt_broker" (json_string (mqtt_broker cfg)) ++ "," ++ newline ++
  json_member "mqtt_port" (json_int (mqtt_port cfg)) ++ "," ++ newline ++
  json_member "tuya_knob_topic" (json_string (tuya_knob_topic cfg)) ++ newline ++
  "}".

(** The default settings with the zone name changed to Kitchen. *)
Definition kitchen_config : settings :=
  {| zone_id := None; zone_name := Some "Kitchen"; volume := 15;
     volume_step := 5; mqtt_broker := "localhost"; mqtt_port := 1883;
     tuya_knob_topic := "zigbee2mqtt/TuyaKnob" |}.

(** * Vocabulary of the further statements *)

(** The events of the connection handling itself: waiting and building the
    API object. *)
Definition connection_event (e : event) : Prop :=
  match e with
  | EvSleep _ | EvRoonApiNew => True
  | _ => False
  end.

(** Everything but the API object, the health flag, the interaction counter
    and the trace is as before. *)
Definition same_settings_and_telemetry (c c' : controller) : Prop :=
  zone_output_id c' = zone_output_id c /\
  config c' = config c /\
  mqtt_connected c' = mqtt_connected c /\
  last_successful_command c' = last_successful_command c /\
  knob_battery c' = knob_battery c /\
  knob_last_seen c' = knob_last_seen c /\
  knob_voltage c' = knob_voltage c /\
  knob_linkquality c' = knob_linkquality c.

(** [d[key]] for a key of the dict, [None] otherwise. *)
Definition dict_get (key : string) (d : list (string * pyval)) : option pyval :=
  match find (fun kv => String.eqb key (fst kv)) d with
  | Some (_, v) => Some v
  | None => None
  end.

(** A world in which the control service answers every call and the outputs
    enumerate to [outs]. *)
Definition steady_world (outs : outputs_t) (zs : zones_t) (playback_ok : nat -> bool) : world :=
  {| w_time := fun t => 1000 + Z.of_nat t;
     w_roon_api_new := fun _ => false;
     w_zones := fun _ => Ret (Some zs);
     w_outputs := fun _ => Ret (Some outs);
     w_token_write := fun _ => true;
     w_get_volume_percent := fun _ _ => Ret (Some 40);
     w_set_volume_percent := fun _ _ _ => true;
     w_playback_control := fun t _ _ => playback_ok t;
     w_mqtt_reconnect := fun _ => true |}.

(** A world in which the extension is never enabled: the API object is built
    but the zones stay [None]. *)
Definition unauthorized_world : world :=
  {| w_time := fun t => 1000 + Z.of_nat t;
     w_roon_api_new := fun _ => true;
     w_zones := fun _ => Ret None;
     w_outputs := fun _ => Ret None;
     w_token_write := fun _ => true;
     w_get_volume_percent := fun _ _ => Exc;
     w_set_volume_percent := fun _ _ _ => false;
     w_playback_control := fun _ _ _ => false;
     w_mqtt_reconnect := fun _ => false |}.

(** Only connection handling happened, and the bound zone and the settings
    are as before. *)
Definition connection_steps (c c' : controller) : Prop :=
  trace_grows_by connection_event c c' /\ keeps_binding c c'.

(** The number of [set_volume_percent] calls among some events. *)
Fixpoint count_set_volume (l : list event) : nat :=
  match l with
  | [] => 0
  | EvSetVolumePercent _ _ :: rest => S (count_set_volume rest)
  | _ :: rest => count_set_volume rest
  end.

(** The trace grows by events among which at most [n] are
    [set_volume_percent] calls. *)
Definition sets_volume_at_most (n : nat) (c c' : controller) : Prop :=
  exists added,
    trace c' = (trace c ++ added)%list /\ (count_set_volume added <= n)%nat.

(** Started with no zone bound, a computation leaves no zone bound and only
    adds connection handling to the trace. *)
Definition unbound_steps (c c' : controller) : Prop :=
  str_truthy (zone_output_id c) = false ->
  str_truthy (zone_output_id c') = false /\
  trace_grows_by connection_event c c'.

(** The verb [_toggle_playback] sends first for a zone: [pause] when the zone
    reports [playing], [play] for every other state and for no state. *)
Definition first_verb (info : zone_info) : string :=
  match zone_state info with
  | Some state => if String.eqb state "playing" then "pause" else "play"
  | None => "play"
  end.

(** The value a telemetry attribute takes from a decoded record: the record's
    entry when it has one, the old value otherwise. *)
Definition taken_from (key : string) (d : list (string * pyval)) (old : pyval)
  : pyval :=
  match dict_get key d with
  | Some v => v
  | None => old
  end.

(** [c1] is [c] after the telemetry of the record [d] was stored at the time
    the clock shows in [c]: last-seen and the three telemetry attributes are
    updated, one interaction was counted, and nothing else differs. *)
Definition telemetry_recorded (w : world) (d : list (string * pyval))
    (c c1 : controller) : Prop :=
  knob_last_seen c1 = Some (w_time w (tick c)) /\
  knob_battery c1 = taken_from "battery" d (knob_battery c) /\
  knob_voltage c1 = taken_from "voltage" d (knob_voltage c) /\
  knob_linkquality c1 = taken_from "linkquality" d (knob_linkquality c) /\
  tick c1 = S (tick c) /\
  trace c1 = trace c /\
  zone_output_id c1 = zone_output_id c /\
  config c1 = config c /\
  roonapi c1 = roonapi c /\
  mqtt_connected c1 = mqtt_connected c /\
  roon_connection_healthy c1 = roon_connection_healthy c /\
  last_successful_command c1 = last_successful_command c.

(** [if key in payload: self.attribute = payload[key]] on the record [d]. *)
Definition store_if_present (key : string) (d : list (string * pyval))
    (setter : pyval -> controller -> controller) (c : controller) : controller :=
  match dict_get key d with
  | Some v => setter v c
  | None => c
  end.

(** The controller after lines 489-498 on the record [d]. *)
Definition with_telemetry (w : world) (d : list (string * pyval))
    (c : controller) : controller :=
  store_if_present "linkquality" d set_knob_linkquality
    (store_if_present "voltage" d set_knob_voltage
       (store_if_present "battery" d set_knob_battery
          (set_knob_last_seen (Some (w_time w (tick c))) (next_tick c)))).

(** A decoder for one record: the payload [raw] decodes to [d]. *)
Definition decodes_to (raw : string) (d : list (string * pyval))
    (payload : string) : outcome pyval :=
  if String.eqb payload raw then Ret (PyDict d) else Exc.

(** * Reasoning principles *)

Lemma bind_run {A B} (m : M A) (k : A -> M B) c a c' :
  m c = (Ret a, c') -> bind m k c = k a c'.
Proof. intros H. unfold bind. now rewrite H. Qed.

Lemma bind_exc {A B} (m : M A) (k : A -> M B) c c' :
  m c = (Exc, c') -> bind m k c = (Exc, c').
Proof. intros H. unfold bind. now rewrite H. Qed.

Lemma try_except_run {A} (body handler : M A) c a c' :
  body c = (Ret a, c') -> try_except body handler c = (Ret a, c').
Proof. intros H. unfold try_except. now rewrite H. Qed.

Lemma try_except_exc {A} (body handler : M A) c c' :
  body c = (Exc, c') -> try_except body handler c = handler c'.
Proof. intros H. unfold try_except. now rewrite H. Qed.

(** ** Relations that every step of a computation respects *)

Section Steps.

Variable R : controller -> controller -> Prop.
Hypothesis R_refl : forall c, R c c.
Hypothesis R_trans : forall a b c, R a b -> R b c -> R a c.

Lemma steps_ret {A} (a : A) : steps R (ret a).
Proof. intros c o c' H. inversion H. apply R_refl. Qed.

Lemma steps_raise {A} : steps R (@raise A).
Proof. intros c o c' H. inversion H. apply R_refl. Qed.

Lemma steps_gets {A} (f : controller -> A) : steps R (gets f).
Proof. intros c o c' H. inversion H. apply R_refl. Qed.

Lemma steps_modify f : (forall c, R c (f c)) -> steps R (modify f).
Proof. intros Hf c o c' H. inversion H. apply Hf. Qed.

Lemma steps_bind {A B} (m : M A) (k : A -> M B) :
  steps R m -> (forall a, steps R (k a)) -> steps R (bind m k).
Proof.
  intros Hm Hk c o c' H. unfold bind in H.
  destruct (m c) as [[a|] c1] eqn:E.
  - eapply R_trans; [eapply Hm; exact E | eapply Hk; exact H].
  - inversion H; subst. eapply Hm; exact E.
Qed.

Lemma steps_try_except {A} (body handler : M A) :
  steps R body -> steps R handler -> steps R (try_except body handler).
Proof.
  intros Hb Hh c o c' H. unfold try_except in H.
  destruct (body c) as [[a|] c1] eqn:E.
  - inversion H; subst. eapply Hb; exact E.
  - eapply R_trans; [eapply Hb; exact E | eapply Hh; exact H].
Qed.

Lemma steps_if {A} (b : bool) (m1 m2 : M A) :
  steps R m1 -> steps R m2 -> steps R (if b then m1 else m2).
Proof. now destruct b. Qed.

(** What the relation has to allow for the retry wrapper to respect it. *)
Hypothesis R_tick : forall c, R c (next_tick c).
Hypothesis R_sleep : forall n c, R c (record_event (EvSleep n) c).
Hypothesis R_api_event : forall c, R c (record_event EvRoonApiNew c).
Hypothesis R_api : forall h c, R c (set_roonapi (Some h) c).
Hypothesis R_healthy : forall b c, R c (set_roon_connection_healthy b c).
Hypothesis R_last : forall t c, R c (set_last_successful_command t c).

Variable w : world.

Lemma steps_consult {A} (oracle : world -> nat -> A) : steps R (consult w oracle).
Proof. intros c o c' H. inversion H. apply R_tick. Qed.

Lemma steps_consult_or_raise {A} (oracle : world -> nat -> outcome A) :
  steps R (consult_or_raise w oracle).
Proof.
  apply steps_bind; [apply steps_consult|].
  intros [a|]; [apply steps_ret | apply steps_raise].
Qed.

Lemma steps_perform oracle : steps R (perform w oracle).
Proof.
  apply steps_bind; [apply steps_consult|].
  intros [|]; [apply steps_ret | apply steps_raise].
Qed.

Lemma steps_time_sleep n : steps R (time_sleep n).
Proof. apply steps_modify. apply R_sleep. Qed.

Lemma steps_wait_for_authorization polls : steps R (wait_for_authorization w polls).
Proof.
  induction polls as [|p IH]; simpl.
  - apply steps_bind; [apply steps_modify, R_healthy | intros; apply steps_ret].
  - apply steps_bind.
    + apply steps_try_except.
      * apply steps_bind; [apply steps_consult_or_raise|]. intros zs.
        apply steps_bind; [apply steps_consult_or_raise|]. intros os.
        destruct zs, os;
          repeat (first [ apply steps_ret | apply steps_time_sleep
                        | apply steps_perform | apply steps_modify, R_healthy
                        | apply steps_bind; [|intros] ]).
      * apply steps_bind; [apply steps_time_sleep | intros; apply steps_ret].
    + intros [|]; [apply steps_ret | exact IH].
Qed.

Lemma steps_setup_roon : steps R (setup_roon w).
Proof.
  apply steps_try_except.
  - apply steps_bind.
    + unfold roon_api_new.
      apply steps_bind; [apply steps_gets|]. intros t.
      apply steps_bind; [apply steps_perform|]. intros _.
      apply steps_bind; [apply steps_modify, R_api_event|]. intros _.
      apply steps_modify, R_api.
    + intros _. apply steps_wait_for_authorization.
  - apply steps_bind; [apply steps_modify, R_healthy | intros; apply steps_ret].
Qed.

Lemma steps_run_command cmd : steps R cmd -> steps R (run_command w cmd).
Proof.
  intros Hc. unfold run_command.
  apply steps_bind; [exact Hc|]. intros r.
  apply steps_bind; [apply steps_consult|]. intros t.
  apply steps_bind; [apply steps_modify, R_last|]. intros _.
  apply steps_bind; [apply steps_modify, R_healthy|]. intros _.
  apply steps_ret.
Qed.

Lemma steps_robust_attempt cmd n k :
  steps R cmd -> steps R (robust_attempt w cmd n k).
Proof.
  intros Hc. unfold robust_attempt.
  apply steps_try_except.
  - apply steps_bind; [apply steps_gets|]. intros [h|].
    + now apply steps_run_command.
    + apply steps_bind; [apply steps_setup_roon|]. intros [|].
      * now apply steps_run_command.
      * apply steps_if.
        -- apply steps_bind; [apply steps_time_sleep | intros; apply steps_ret].
        -- apply steps_bind; [apply steps_modify, R_healthy | intros; apply steps_ret].
  - apply steps_if.
    + apply steps_bind; [apply steps_time_sleep|]. intros _.
      apply steps_bind; [apply steps_setup_roon | intros; apply steps_ret].
    + apply steps_bind; [apply steps_modify, R_healthy | intros; apply steps_ret].
Qed.

Lemma steps_robust_loop cmd n todo :
  steps R cmd -> steps R (robust_loop w cmd n todo).
Proof.
  intros Hc. induction todo as [|t IH]; simpl.
  - apply steps_ret.
  - apply steps_bind; [now apply steps_robust_attempt|].
    intros [v|]; [apply steps_ret | exact IH].
Qed.

Lemma steps_robust_roon_command cmd n :
  steps R cmd -> steps R (robust_roon_command w cmd n).
Proof. apply steps_robust_loop. Qed.

End Steps.

(** ** Instances of the relation *)

Lemma trace_grows_refl P c : trace_grows_by P c c.
Proof. exists []. split; [symmetry; apply app_nil_r | constructor]. Qed.

Lemma trace_grows_trans P a b c :
  trace_grows_by P a b -> trace_grows_by P b c -> trace_grows_by P a c.
Proof.
  intros [l1 [E1 F1]] [l2 [E2 F2]]. exists (l1 ++ l2)%list. split.
  - rewrite E2, E1. symmetry. apply app_assoc.
  - apply Forall_app. now split.
Qed.

Lemma trace_grows_event (P : event -> Prop) e c :
  P e -> trace_grows_by P c (record_event e c).
Proof. intros H. exists [e]. split; [reflexivity | now constructor]. Qed.

Lemma trace_grows_same P c c' : trace c' = trace c -> trace_grows_by P c c'.
Proof. intros H. exists []. split; [now rewrite app_nil_r | constructor]. Qed.

Lemma keeps_api_refl c : keeps_api c c.
Proof. now intros H. Qed.

Lemma keeps_api_trans a b c : keeps_api a b -> keeps_api b c -> keeps_api a c.
Proof. unfold keeps_api. auto. Qed.

Lemma keeps_api_same c c' : roonapi c' = roonapi c -> keeps_api c c'.
Proof. intros E H. now rewrite E. Qed.

Lemma keeps_binding_refl c : keeps_binding c c.
Proof. now split. Qed.

Lemma keeps_binding_trans a b c :
  keeps_binding a b -> keeps_binding b c -> keeps_binding a c.
Proof. intros [H1 H2] [H3 H4]. split; congruence. Qed.

Section Wrapper.

Variable w : world.

(** The wrapper only adds sleeps and reconnections of its own to what the
    wrapped command records. *)
Lemma robust_roon_command_trace (P : event -> Prop) cmd n :
  (forall s, P (EvSleep s)) -> P EvRoonApiNew ->
  steps (trace_grows_by P) cmd ->
  steps (trace_grows_by P) (robust_roon_command w cmd n).
Proof.
  intros Hs Ha Hc.
  apply steps_robust_roon_command; auto using trace_grows_refl, trace_grows_event.
  - apply trace_grows_trans.
  - intros; now apply trace_grows_same.
  - intros; now apply trace_grows_same.
  - intros; now apply trace_grows_same.
  - intros; now apply trace_grows_same.
Qed.

Lemma robust_roon_command_keeps_api cmd n :
  steps keeps_api cmd -> steps keeps_api (robust_roon_command w cmd n).
Proof.
  intros Hc.
  apply steps_robust_roon_command; auto using keeps_api_refl;
    try (intros; now apply keeps_api_same).
  - apply keeps_api_trans.
  - intros h c _. discriminate.
Qed.

Lemma robust_roon_command_keeps_binding cmd n :
  steps keeps_binding cmd -> steps keeps_binding (robust_roon_command w cmd n).
Proof.
  intros Hc.
  apply steps_robust_roon_command; auto using keeps_binding_refl;
    try (intros; now split).
  apply keeps_binding_trans.
Qed.

(** [setup_roon] reports failure by its result, never by an exception. *)
Lemma setup_roon_never_raises : never_raises (setup_roon w).
Proof.
  intros c. unfold setup_roon, try_except.
  destruct ((roon_api_new w;; wait_for_authorization w _) c) as [[a|] c1];
    simpl; discriminate.
Qed.

Lemma setup_roon_returns c : exists ok, setup_roon w c = (Ret ok, snd (setup_roon w c)).
Proof.
  pose proof (setup_roon_never_raises c) as H.
  destruct (setup_roon w c) as [[ok|] c1]; simpl in *; [now exists ok | congruence].
Qed.

Lemma run_command_ret cmd c v c1 :
  cmd c = (Ret v, c1) -> run_command w cmd c = (Ret (Some v), mark_success w c1).
Proof. intros H. unfold run_command. now rewrite (bind_run _ _ _ _ _ H). Qed.

Lemma run_command_exc cmd c c1 :
  cmd c = (Exc, c1) -> run_command w cmd c = (Exc, c1).
Proof. intros H. unfold run_command. now rewrite (bind_exc _ _ _ _ H). Qed.

(** An attempt that finds the API object and whose command returns. *)
Lemma robust_attempt_ret cmd n k c v c1 :
  roonapi c <> None -> cmd c = (Ret v, c1) ->
  robust_attempt w cmd n k c = (Ret (Some v), mark_success w c1).
Proof.
  intros Hapi H. unfold robust_attempt.
  apply try_except_run. unfold bind at 1, gets.
  destruct (roonapi c); [now apply run_command_ret | congruence].
Qed.

(** An attempt whose command raises, with attempts left. *)
Lemma robust_attempt_exc_retry cmd n k c c1 :
  roonapi c <> None -> cmd c = (Exc, c1) -> (k <? n - 1)%nat = true ->
  robust_attempt w cmd n k c = (Ret None, after_failed_attempt w c1).
Proof.
  intros Hapi H Hk. unfold robust_attempt.
  rewrite (try_except_exc _ _ c c1).
  2:{ unfold bind at 1, gets. destruct (roonapi c); [|congruence].
      now apply run_command_exc. }
  rewrite Hk. unfold after_failed_attempt, bind, time_sleep, modify.
  destruct (setup_roon_returns (record_event (EvSleep 2) c1)) as [ok E].
  now rewrite E.
Qed.

(** The last attempt, whose command raises. *)
Lemma robust_attempt_exc_last cmd n k c c1 :
  roonapi c <> None -> cmd c = (Exc, c1) -> (k <? n - 1)%nat = false ->
  robust_attempt w cmd n k c = (Ret None, set_roon_connection_healthy false c1).
Proof.
  intros Hapi H Hk. unfold robust_attempt.
  rewrite (try_except_exc _ _ c c1).
  2:{ unfold bind at 1, gets. destruct (roonapi c); [|congruence].
      now apply run_command_exc. }
  now rewrite Hk.
Qed.

(** Whatever the command does, an attempt ends without an exception. *)
Lemma robust_attempt_never_raises cmd n k : never_raises (robust_attempt w cmd n k).
Proof.
  intros c. unfold robust_attempt, try_except.
  match goal with |- context [match ?b c with _ => _ end] => destruct (b c) as [[a|] c1] end;
    [simpl; discriminate|].
  destruct (k <? n - 1)%nat.
  - unfold bind, time_sleep, modify.
    destruct (setup_roon_returns (record_event (EvSleep 2) c1)) as [ok E].
    rewrite E. simpl. discriminate.
  - simpl. discriminate.
Qed.

Lemma robust_loop_never_raises cmd n todo : never_raises (robust_loop w cmd n todo).
Proof.
  induction todo as [|t IH]; intros c; simpl; [discriminate|].
  unfold bind. pose proof (robust_attempt_never_raises cmd n (n - S t) c) as H.
  destruct (robust_attempt w cmd n (n - S t) c) as [[[v|]|] c1]; simpl in *.
  - discriminate.
  - apply IH.
  - congruence.
Qed.

Lemma robust_roon_command_never_raises cmd n :
  never_raises (robust_roon_command w cmd n).
Proof. apply robust_loop_never_raises. Qed.

(** With the API object in place, a command that returns is run once. *)
Lemma robust_roon_command_first_try cmd n c v c1 :
  roonapi c <> None -> cmd c = (Ret v, c1) ->
  robust_roon_command w cmd (S n) c = (Ret v, mark_success w c1).
Proof.
  intros Hapi H. unfold robust_roon_command. simpl robust_loop.
  now rewrite (bind_run _ _ _ _ _ (robust_attempt_ret cmd _ _ c v c1 Hapi H)).
Qed.

(** A value other than [False] handed back by the wrapper is the result of a
    run of the command that returned. *)
Lemma robust_loop_result cmd n todo c v c' :
  robust_loop w cmd n todo c = (Ret v, c') ->
  v = PyBool false \/
  exists ca cb, cmd ca = (Ret v, cb) /\ c' = mark_success w cb.
Proof.
  revert c. induction todo as [|t IH]; intros c H; simpl in H.
  - inversion H. now left.
  - unfold bind in H.
    destruct (robust_attempt w cmd n (n - S t) c) as [[[r|]|] c1] eqn:E;
      [| now apply IH in H | discriminate].
    inversion H; subst; clear H.
    unfold robust_attempt, try_except in E.
    match type of E with context [match ?b c with _ => _ end] =>
      destruct (b c) as [[a|] c2] eqn:B end.
    + inversion E; subst; clear E.
      unfold bind at 1 in B. unfold gets in B.
      assert (Hrun : forall cx o cy, run_command w cmd cx = (Ret o, cy) ->
                exists vv cb, o = Some vv /\ cmd cx = (Ret vv, cb) /\ cy = mark_success w cb).
      { intros cx o cy Hr. unfold run_command, bind in Hr.
        destruct (cmd cx) as [[vv|] cb]; [|discriminate].
        simpl in Hr. inversion Hr. now exists vv, cb. }
      destruct (roonapi c) eqn:Ha.
      * apply Hrun in B. destruct B as [vv [cb [Ev [Ec Em]]]].
        inversion Ev; subst. right. now exists c, cb.
      * unfold bind in B.
        destruct (setup_roon w c) as [[[|]|] c3] eqn:Hs; [| |discriminate].
        -- apply Hrun in B. destruct B as [vv [cb [Ev [Ec Em]]]].
           inversion Ev; subst. right. now exists c3, cb.
        -- destruct (n - S t <? n - 1)%nat; simpl in B; inversion B. now left.
    + destruct (n - S t <? n - 1)%nat.
      * unfold bind in E. destruct (time_sleep 2 c2) as [[u|] c3]; [|discriminate].
        destruct (setup_roon w c3) as [[ok|] c4]; discriminate.
      * simpl in E. discriminate.
Qed.

End Wrapper.

(** ** The wrapper on three attempts *)

Section ThreeAttempts.

Variable w : world.
Variable cmd : M pyval.
Variables c0 c1 c3 : controller.

Hypothesis api0 : roonapi c0 <> None.
Hypothesis raise1 : cmd c0 = (Exc, c1).
Hypothesis api1 : roonapi (after_failed_attempt w c1) <> None.
Hypothesis raise2 : cmd (after_failed_attempt w c1) = (Exc, c3).
Hypothesis api2 : roonapi (after_failed_attempt w c3) <> None.

Lemma robust_third_attempt :
  robust_roon_command w cmd 3 c0 =
  (r <- robust_attempt w cmd 3 2 ;;
   match r with
   | Some v => ret v
   | None => ret (PyBool false)
   end) (after_failed_attempt w c3).
Proof.
  unfold robust_roon_command. simpl robust_loop.
  rewrite (bind_run _ _ _ _ _
             (robust_attempt_exc_retry w cmd 3 0 c0 c1 api0 raise1 eq_refl)).
  rewrite (bind_run _ _ _ _ _
             (robust_attempt_exc_retry w cmd 3 1 _ c3 api1 raise2 eq_refl)).
  reflexivity.
Qed.

Lemma robust_two_failures_then_return r c5 :
  cmd (after_failed_attempt w c3) = (Ret r, c5) ->
  robust_roon_command w cmd 3 c0 = (Ret r, mark_success w c5).
Proof.
  intros H. rewrite robust_third_attempt.
  now rewrite (bind_run _ _ _ _ _ (robust_attempt_ret w cmd 3 2 _ r c5 api2 H)).
Qed.

Lemma robust_three_failures c5 :
  cmd (after_failed_attempt w c3) = (Exc, c5) ->
  robust_roon_command w cmd 3 c0 =
  (Ret (PyBool false), set_roon_connection_healthy false c5).
Proof.
  intros H. rewrite robust_third_attempt.
  now rewrite (bind_run _ _ _ _ _
                 (robust_attempt_exc_last w cmd 3 2 _ c5 api2 H eq_refl)).
Qed.

End ThreeAttempts.

(** * The retry wrapper *)

(** C3: with [max_retries = 3], when the operation raises on attempts 1 and 2
    and returns on attempt 3 the wrapper hands back that result, marks the
    session healthy and stores the clock reading taken after the operation
    as the time of the last successful command; when it raises on all three
    attempts the wrapper returns [False] without raising and marks the session
    unhealthy. *)
Theorem robust_roon_command_three_attempts
    (w : world) (cmd : M pyval) (c0 c1 c3 : controller) :
  roonapi c0 <> None ->
  cmd c0 = (Exc, c1) ->
  roonapi (after_failed_attempt w c1) <> None ->
  cmd (after_failed_attempt w c1) = (Exc, c3) ->
  roonapi (after_failed_attempt w c3) <> None ->
  (forall r c5,
      cmd (after_failed_attempt w c3) = (Ret r, c5) ->
      exists c', robust_roon_command w cmd 3 c0 = (Ret r, c') /\
                 roon_connection_healthy c' = true /\
                 last_successful_command c' = w_time w (tick c5)) /\
  (forall c5,
      cmd (after_failed_attempt w c3) = (Exc, c5) ->
      exists c', robust_roon_command w cmd 3 c0 = (Ret (PyBool false), c') /\
                 roon_connection_healthy c' = false).
Proof.
  intros A0 R1 A1 R2 A2. split.
  - intros r c5 H. exists (mark_success w c5). split; [|now split].
    now apply (robust_two_failures_then_return w cmd c0 c1 c3).
  - intros c5 H. exists (set_roon_connection_healthy false c5). split; [|reflexivity].
    now apply (robust_three_failures w cmd c0 c1 c3).
Qed.

Lemma robust_roon_command_three_attempts_witness :
  (exists c',
      robust_roon_command (scripted_world 1000 4 None)
        (_find_zone (scripted_world 1000 4 None) None (Some "Kitchen")) 3
        kitchen_controller = (Ret (PyStr "o1"), c') /\
      roon_connection_healthy c' = true /\
      last_successful_command c' = 1005) /\
  (exists c',
      robust_roon_command (scripted_world 1000 1000 None)
        (_find_zone (scripted_world 1000 1000 None) None (Some "Kitchen")) 3
        kitchen_controller = (Ret (PyBool false), c') /\
      roon_connection_healthy c' = false).
Proof.
  split.
  - pose (w := scripted_world 1000 4 None).
    pose (cmd := _find_zone w None (Some "Kitchen")).
    pose (c1 := snd (cmd kitchen_controller)).
    pose (c3 := snd (cmd (after_failed_attempt w c1))).
    pose (c5 := snd (cmd (after_failed_attempt w c3))).
    refine (proj1 (robust_roon_command_three_attempts w cmd kitchen_controller
                     c1 c3 _ _ _ _ _) (PyStr "o1") c5 _);
      vm_compute; solve [reflexivity | discriminate].
  - pose (w := scripted_world 1000 1000 None).
    pose (cmd := _find_zone w None (Some "Kitchen")).
    pose (c1 := snd (cmd kitchen_controller)).
    pose (c3 := snd (cmd (after_failed_attempt w c1))).
    pose (c5 := snd (cmd (after_failed_attempt w c3))).
    refine (proj2 (robust_roon_command_three_attempts w cmd kitchen_controller
                     c1 c3 _ _ _ _ _) c5 _);
      vm_compute; solve [reflexivity | discriminate].
Defined.

(** ** The volume commands *)

Section VolumeCommands.

Variable w : world.

Lemma _get_volume_unavailable c :
  str_truthy (zone_output_id c) = false \/ roonapi c = None ->
  _get_volume w c = (Ret PyNone, c).
Proof.
  intros H. unfold _get_volume, bind, gets.
  destruct (zone_output_id c) as [z|], (roonapi c) as [h|]; try reflexivity.
  destruct H as [H|H]; [now rewrite H | discriminate].
Qed.

Lemma _get_volume_bound c z :
  zone_output_id c = Some z -> str_truthy (Some z) = true -> roonapi c <> None ->
  _get_volume w c =
  (Ret (match w_get_volume_percent w (tick c) z with
        | Ret v => py_of_volume v
        | Exc => PyNone
        end),
   next_tick (record_event (EvGetVolumePercent z) c)).
Proof.
  intros Hz Ht Ha. unfold _get_volume, bind at 1 2, gets. rewrite Hz.
  destruct (roonapi c); [|congruence]. rewrite Ht.
  unfold try_except, roonapi_get_volume_percent, consult_or_raise, consult,
    bind, modify, ret, raise. simpl.
  now destruct (w_get_volume_percent w (tick c) z).
Qed.

Lemma _set_volume_bound c z v :
  zone_output_id c = Some z -> str_truthy (Some z) = true -> roonapi c <> None ->
  _set_volume w v c =
  (Ret (PyBool (w_set_volume_percent w (tick c) z (clamp_percent v))),
   next_tick (record_event (EvSetVolumePercent z (clamp_percent v)) c)).
Proof.
  intros Hz Ht Ha. unfold _set_volume, bind at 1 2, gets. rewrite Hz.
  destruct (roonapi c); [|congruence]. rewrite Ht.
  unfold try_except, roonapi_set_volume_percent, perform, consult,
    bind, modify, ret, raise. simpl.
  now destruct (w_set_volume_percent w (tick c) z (clamp_percent v)).
Qed.

(** With the zone bound and the API object in place, [set_volume] issues one
    [set_volume_percent] call and nothing else. *)
Lemma set_volume_bound c z v :
  zone_output_id c = Some z -> str_truthy (Some z) = true -> roonapi c <> None ->
  set_volume w v c =
  (Ret (PyBool (w_set_volume_percent w (tick c) z (clamp_percent v))),
   mark_success w (next_tick (record_event (EvSetVolumePercent z (clamp_percent v)) c))).
Proof.
  intros Hz Ht Ha. unfold set_volume.
  apply robust_roon_command_first_try; [exact Ha|].
  now apply _set_volume_bound.
Qed.

Lemma clamp_percent_range v : 0 <= clamp_percent v <= 100.
Proof. unfold clamp_percent. lia. Qed.

Lemma clamp_percent_idem v : clamp_percent (clamp_percent v) = clamp_percent v.
Proof. unfold clamp_percent. lia. Qed.

End VolumeCommands.

(** C10: the wrapper counts every invocation of the operation that returns as
    a success, whatever it returns: the session is marked healthy and the
    time of the last successful command is updated, also for [None] (a volume
    read with no zone bound) and for [False]; and [False] is also what the
    wrapper returns after three failed attempts, so the returned value alone
    does not tell the two apart. *)
Theorem robust_roon_command_counts_any_return (w : world) :
  (forall cmd c v c1,
      roonapi c <> None -> cmd c = (Ret v, c1) ->
      exists c', robust_roon_command w cmd 3 c = (Ret v, c') /\
                 roon_connection_healthy c' = true /\
                 last_successful_command c' = w_time w (tick c1)) /\
  (forall c,
      roonapi c <> None -> str_truthy (zone_output_id c) = false ->
      exists c', get_current_volume w c = (Ret PyNone, c') /\
                 roon_connection_healthy c' = true /\
                 last_successful_command c' = w_time w (tick c)) /\
  (forall cmd c c1 cmd' d0 d1 d3 d5,
      roonapi c <> None -> cmd c = (Ret (PyBool false), c1) ->
      roonapi d0 <> None -> cmd' d0 = (Exc, d1) ->
      roonapi (after_failed_attempt w d1) <> None ->
      cmd' (after_failed_attempt w d1) = (Exc, d3) ->
      roonapi (after_failed_attempt w d3) <> None ->
      cmd' (after_failed_attempt w d3) = (Exc, d5) ->
      fst (robust_roon_command w cmd 3 c) = fst (robust_roon_command w cmd' 3 d0) /\
      roon_connection_healthy (snd (robust_roon_command w cmd 3 c)) = true /\
      roon_connection_healthy (snd (robust_roon_command w cmd' 3 d0)) = false).
Proof.
  split; [|split].
  - intros cmd c v c1 Ha H. exists (mark_success w c1).
    split; [now apply robust_roon_command_first_try | now split].
  - intros c Ha Hz. exists (mark_success w c). split; [|now split].
    apply robust_roon_command_first_try; [exact Ha|].
    apply _get_volume_unavailable. now left.
  - intros cmd c c1 cmd' d0 d1 d3 d5 Ha H Hd0 E1 Hd1 E2 Hd3 E3.
    rewrite (robust_roon_command_first_try w cmd 2 c _ c1 Ha H).
    rewrite (robust_three_failures w cmd' d0 d1 d3 Hd0 E1 Hd1 E2 Hd3 d5 E3).
    now repeat split.
Qed.

Lemma robust_roon_command_counts_any_return_witness :
  let w := scripted_world 1000 1000 None in
  let c := set_roonapi (Some 0%nat) fresh_controller in
  (exists c', robust_roon_command w (_set_volume w 50) 3 c = (Ret (PyBool false), c') /\
              roon_connection_healthy c' = true /\
              last_successful_command c' = 1000) /\
  (exists c', get_current_volume w c = (Ret PyNone, c') /\
              roon_connection_healthy c' = true /\
              last_successful_command c' = 1000) /\
  (fst (robust_roon_command w (_set_volume w 50) 3 c) =
   fst (robust_roon_command w (_find_zone w None (Some "Kitchen")) 3 kitchen_controller) /\
   roon_connection_healthy (snd (robust_roon_command w (_set_volume w 50) 3 c)) = true /\
   roon_connection_healthy
     (snd (robust_roon_command w (_find_zone w None (Some "Kitchen")) 3
             kitchen_controller)) = false).
Proof.
  intros w c.
  pose (find := _find_zone w None (Some "Kitchen")).
  pose (d1 := snd (find kitchen_controller)).
  pose (d3 := snd (find (after_failed_attempt w d1))).
  pose (d5 := snd (find (after_failed_attempt w d3))).
  split; [|split].
  - refine (proj1 (robust_roon_command_counts_any_return w)
              (_set_volume w 50) c (PyBool false) c _ _);
      vm_compute; solve [reflexivity | discriminate].
  - refine (proj1 (proj2 (robust_roon_command_counts_any_return w)) c _ _);
      vm_compute; solve [reflexivity | discriminate].
  - refine (proj2 (proj2 (robust_roon_command_counts_any_return w))
              (_set_volume w 50) c c find kitchen_controller d1 d3 d5
              _ _ _ _ _ _ _ _);
      vm_compute; solve [reflexivity | discriminate].
Defined.

(** ** Relations respected by the commands and the action handler *)

Section CommandSteps.

Variable R : controller -> controller -> Prop.
Hypothesis R_refl : forall c, R c c.
Hypothesis R_trans : forall a b c, R a b -> R b c -> R a c.
Hypothesis R_tick : forall c, R c (next_tick c).
Hypothesis R_api : forall h c, R c (set_roonapi (Some h) c).
Hypothesis R_healthy : forall b c, R c (set_roon_connection_healthy b c).
Hypothesis R_last : forall t c, R c (set_last_successful_command t c).

(** The events the relation lets a computation record. *)
Variable allowed : event -> Prop.
Hypothesis R_event : forall e c, allowed e -> R c (record_event e c).
Hypothesis allowed_sleep : forall n, allowed (EvSleep n).
Hypothesis allowed_api : allowed EvRoonApiNew.

Variable w : world.

Create HintDb steps_db.
Local Hint Resolve steps_ret steps_raise steps_gets steps_consult
  steps_consult_or_raise steps_perform : steps_db.
Local Hint Unfold roonapi_zones roonapi_outputs : steps_db.

Local Ltac sbind := apply (steps_bind R R_trans).
Local Ltac stry := apply (steps_try_except R R_trans).
Local Ltac sdone := solve [auto with steps_db].

Lemma steps_wrapped cmd n : steps R cmd -> steps R (robust_roon_command w cmd n).
Proof. intros H. apply steps_robust_roon_command; auto. Qed.

Lemma steps_record e : allowed e -> steps R (modify (record_event e)).
Proof. intros H. apply steps_modify. intros c. now apply R_event. Qed.

Lemma steps__get_volume :
  (forall z, allowed (EvGetVolumePercent z)) -> steps R (_get_volume w).
Proof.
  intros Hg. unfold _get_volume.
  sbind; [sdone|]. intros zone.
  sbind; [sdone|]. intros api.
  destruct zone as [z|], api as [h|]; try sdone.
  apply steps_if; [|sdone].
  stry; [|sdone].
  sbind; [|intros; sdone].
  sbind; [now apply steps_record | intros; sdone].
Qed.

Lemma steps__set_volume v :
  (forall z, allowed (EvSetVolumePercent z (clamp_percent v))) ->
  steps R (_set_volume w v).
Proof.
  intros Hs. unfold _set_volume.
  sbind; [sdone|]. intros zone.
  sbind; [sdone|]. intros api.
  destruct zone as [z|], api as [h|]; try sdone.
  apply steps_if; [|sdone].
  stry; [|sdone].
  sbind; [|intros; sdone].
  sbind; [now apply steps_record | intros; sdone].
Qed.

Lemma steps_playback zone verb :
  (forall z v, allowed (EvPlaybackControl z v)) ->
  steps R (roonapi_playback_control w zone verb).
Proof.
  intros Hp. sbind; [now apply steps_record | intros; sdone].
Qed.

Lemma steps__toggle_playback :
  (forall z v, allowed (EvPlaybackControl z v)) -> steps R (_toggle_playback w).
Proof.
  intros Hp. unfold _toggle_playback.
  sbind; [sdone|]. intros zone.
  sbind; [sdone|]. intros api.
  destruct zone as [z|], api as [h|]; try sdone.
  apply steps_if; [|sdone].
  sbind; [apply steps_consult_or_raise; auto|].
  intros [zs|]; [|sdone].
  destruct (find (zone_has_output z) zs) as [[zid info]|]; [|sdone].
  apply steps_if; [|sdone].
  stry.
  - sbind; [|intros; sdone].
    apply steps_if; now apply steps_playback.
  - stry; [|sdone].
    sbind; [now apply steps_playback | intros; sdone].
Qed.

Lemma steps_get_current_volume :
  (forall z, allowed (EvGetVolumePercent z)) -> steps R (get_current_volume w).
Proof. intros H. now apply steps_wrapped, steps__get_volume. Qed.

Lemma steps_set_volume v :
  (forall z, allowed (EvSetVolumePercent z (clamp_percent v))) ->
  steps R (set_volume w v).
Proof. intros H. now apply steps_wrapped, steps__set_volume. Qed.

Hypothesis allowed_get : forall z, allowed (EvGetVolumePercent z).
Hypothesis allowed_set : forall z v, allowed (EvSetVolumePercent z (clamp_percent v)).
Hypothesis allowed_playback : forall z v, allowed (EvPlaybackControl z v).

Lemma steps_change_volume delta : steps R (change_volume w delta).
Proof.
  unfold change_volume.
  sbind; [now apply steps_get_current_volume|]. intros current.
  assert (H : steps R
                (sum <- py_add_int current delta ;;
                 done <- set_volume w (clamp_percent sum) ;;
                 if py_truthy done then ret true else ret false)).
  { sbind.
    - destruct current; simpl; sdone.
    - intros sum. sbind; [now apply steps_set_volume|].
      intros done. apply steps_if; sdone. }
  destruct current; solve [exact H | sdone].
Qed.

Lemma steps_toggle_playback : steps R (toggle_playback w).
Proof.
  sbind; [|intros; sdone].
  now apply steps_wrapped, steps__toggle_playback.
Qed.

Lemma steps_handle_knob_action action : steps R (handle_knob_action w action).
Proof.
  unfold handle_knob_action.
  sbind; [sdone|]. intros zone.
  repeat (apply steps_if; [sdone|]).
  apply steps_if; [|apply steps_if; [|apply steps_if; [|apply steps_if; [|apply steps_if]]]];
    try sdone.
  - sbind; [sdone|]. intros step.
    sbind; [apply steps_change_volume | intros; sdone].
  - sbind; [sdone|]. intros step.
    sbind; [apply steps_change_volume | intros; sdone].
  - apply steps_toggle_playback.
  - sbind; [now apply steps_set_volume | intros; sdone].
  - sbind; [now apply steps_set_volume | intros; sdone].
Qed.

End CommandSteps.

(** ** What the action handler leaves in the trace and in the controller *)

Ltac solve_grows :=
  solve [ apply trace_grows_trans
        | intros; apply trace_grows_same; reflexivity
        | intros; apply trace_grows_event; assumption
        | intros; exact I
        | intros; apply clamp_percent_range ].

Ltac solve_keeps_api :=
  solve [ apply keeps_api_trans
        | intros; apply keeps_api_same; reflexivity
        | intros ? ? ?; discriminate
        | intros; exact I ].

Ltac solve_keeps_binding :=
  solve [ apply keeps_binding_trans
        | intros; split; reflexivity
        | intros; exact I ].

Section Handler.

Variable w : world.

Lemma handle_knob_action_clamped action :
  steps (trace_grows_by clamped_event) (handle_knob_action w action).
Proof.
  apply steps_handle_knob_action with (allowed := clamped_event); solve_grows.
Qed.

Lemma set_volume_clamped v :
  steps (trace_grows_by clamped_event) (set_volume w v).
Proof.
  apply steps_set_volume with (allowed := clamped_event); solve_grows.
Qed.

Lemma change_volume_clamped delta :
  steps (trace_grows_by clamped_event) (change_volume w delta).
Proof.
  apply steps_change_volume with (allowed := clamped_event); solve_grows.
Qed.

(** Reading the volume issues no [set_volume_percent] call. *)
Lemma get_current_volume_sets_nothing :
  steps (trace_grows_by not_set_volume) (get_current_volume w).
Proof.
  apply steps_get_current_volume with (allowed := not_set_volume); solve_grows.
Qed.

Lemma get_current_volume_keeps_binding :
  steps keeps_binding (get_current_volume w).
Proof.
  apply steps_get_current_volume with (allowed := fun _ => True);
    solve_keeps_binding.
Qed.

Lemma handle_knob_action_keeps_api action :
  steps keeps_api (handle_knob_action w action).
Proof.
  apply steps_handle_knob_action with (allowed := fun _ => True);
    solve_keeps_api.
Qed.

Lemma handle_knob_action_keeps_binding action :
  steps keeps_binding (handle_knob_action w action).
Proof.
  apply steps_handle_knob_action with (allowed := fun _ => True);
    solve_keeps_binding.
Qed.

(** A volume read that yields a number went through the API object. *)
Lemma get_current_volume_int c n c1 :
  get_current_volume w c = (Ret (PyInt n), c1) -> roonapi c1 <> None.
Proof.
  intros H. apply robust_loop_result in H.
  destruct H as [H | [ca [cb [H E]]]]; [discriminate|]. subst c1.
  unfold _get_volume, bind at 1 2, gets in H.
  destruct (zone_output_id ca) as [z|], (roonapi ca) as [h|] eqn:Ha;
    try discriminate.
  destruct (str_truthy (Some z)); [|discriminate].
  unfold try_except, roonapi_get_volume_percent, consult_or_raise, consult,
    bind, modify, ret, raise in H. simpl in H.
  destruct (w_get_volume_percent w (tick ca) z) as [v|];
    inversion H; subst; simpl; rewrite Ha; discriminate.
Qed.

Lemma str_truthy_some z : z <> "" -> str_truthy (Some z) = true.
Proof. intros H. simpl. apply negb_true_iff. now apply String.eqb_neq. Qed.

(** [change_volume] after a read that yielded the number [cur]. *)
Lemma change_volume_after_read c c1 z cur delta :
  zone_output_id c = Some z -> z <> "" ->
  get_current_volume w c = (Ret (PyInt cur), c1) ->
  trace (snd (change_volume w delta c)) =
  (trace c1 ++ [EvSetVolumePercent z (clamp_percent (cur + delta))])%list.
Proof.
  intros Hz Hne Hread.
  assert (Hz1 : zone_output_id c1 = Some z).
  { destruct (get_current_volume_keeps_binding _ _ _ Hread) as [E _]. congruence. }
  pose proof (get_current_volume_int _ _ _ Hread) as Ha1.
  unfold change_volume. rewrite (bind_run _ _ _ _ _ Hread).
  unfold py_add_int, bind at 1, ret at 1.
  rewrite (bind_run _ _ _ _ _
             (set_volume_bound w c1 z _ Hz1 (str_truthy_some z Hne) Ha1)).
  rewrite clamp_percent_idem.
  now destruct (py_truthy _).
Qed.

Lemma snd_discard {A} (m : M A) c : snd ((m ;; ret tt) c) = snd (m c).
Proof. unfold bind. now destruct (m c) as [[a|] c1]. Qed.

Lemma handle_rotate_right c z :
  zone_output_id c = Some z -> z <> "" ->
  handle_knob_action w (PyStr "rotate_right") c =
  (change_volume w (volume_step (config c)) ;; ret tt) c.
Proof.
  intros Hz Hne. unfold handle_knob_action, bind at 1, gets at 1.
  rewrite Hz, (str_truthy_some z Hne). reflexivity.
Qed.

Lemma handle_rotate_left c z :
  zone_output_id c = Some z -> z <> "" ->
  handle_knob_action w (PyStr "rotate_left") c =
  (change_volume w (- volume_step (config c)) ;; ret tt) c.
Proof.
  intros Hz Hne. unfold handle_knob_action, bind at 1, gets at 1.
  rewrite Hz, (str_truthy_some z Hne). reflexivity.
Qed.

End Handler.

(** * Volume arithmetic *)

(** C1: every [set_volume_percent] call issued by a volume-setting operation
    carries a value between 0 and 100, whatever the requested value or delta;
    and when the volume read yields a current volume [cur] in 0..100, with a
    positive step, rotate-right issues [set_volume_percent] with
    [min(100, cur + step)] and rotate-left with [max(0, cur - step)]. *)
Theorem set_volume_percent_is_clamped (w : world) :
  (forall v, steps (trace_grows_by clamped_event) (set_volume w v)) /\
  (forall delta, steps (trace_grows_by clamped_event) (change_volume w delta)) /\
  (forall action, steps (trace_grows_by clamped_event) (handle_knob_action w action)) /\
  (forall c c1 z cur,
      zone_output_id c = Some z -> z <> "" ->
      0 < volume_step (config c) ->
      get_current_volume w c = (Ret (PyInt cur), c1) ->
      0 <= cur <= 100 ->
      trace (snd (handle_knob_action w (PyStr "rotate_right") c)) =
        (trace c1 ++
         [EvSetVolumePercent z (Z.min 100 (cur + volume_step (config c)))])%list /\
      trace (snd (handle_knob_action w (PyStr "rotate_left") c)) =
        (trace c1 ++
         [EvSetVolumePercent z (Z.max 0 (cur - volume_step (config c)))])%list).
Proof.
  split; [|split; [|split]].
  - apply set_volume_clamped.
  - apply change_volume_clamped.
  - apply handle_knob_action_clamped.
  - intros c c1 z cur Hz Hne Hstep Hread Hcur. split.
    + rewrite (handle_rotate_right w c z Hz Hne), snd_discard.
      rewrite (change_volume_after_read w c c1 z cur _ Hz Hne Hread).
      do 3 f_equal. unfold clamp_percent. lia.
    + rewrite (handle_rotate_left w c z Hz Hne), snd_discard.
      rewrite (change_volume_after_read w c c1 z cur _ Hz Hne Hread).
      do 3 f_equal. unfold clamp_percent. lia.
Qed.

Lemma set_volume_percent_is_clamped_witness :
  let w := scripted_world 1000 0 (Some 98) in
  trace (snd (handle_knob_action w (PyStr "rotate_right") kitchen_controller)) =
    [EvGetVolumePercent "o2"; EvSetVolumePercent "o2" 100] /\
  trace (snd (handle_knob_action w (PyStr "rotate_left") kitchen_controller)) =
    [EvGetVolumePercent "o2"; EvSetVolumePercent "o2" 93].
Proof.
  intros w.
  refine (proj2 (proj2 (proj2 (set_volume_percent_is_clamped w)))
            kitchen_controller (snd (get_current_volume w kitchen_controller))
            "o2" 98 _ _ _ _ _);
    vm_compute; solve [reflexivity | discriminate | split; discriminate].
Defined.

(** * The action handler *)

(** C9: with a zone bound and the API object in place, a double press issues
    exactly one [set_volume_percent] call, with value 50, and a hold exactly
    one, with value 0; the trace grows by that call alone, so the volume is
    not read. *)
Theorem double_and_hold_set_fixed_volume (w : world) (c : controller) (z : string) :
  zone_output_id c = Some z -> z <> "" -> roonapi c <> None ->
  trace (snd (handle_knob_action w (PyStr "double") c)) =
    (trace c ++ [EvSetVolumePercent z 50])%list /\
  trace (snd (handle_knob_action w (PyStr "hold") c)) =
    (trace c ++ [EvSetVolumePercent z 0])%list.
Proof.
  intros Hz Hne Ha.
  assert (Hd : handle_knob_action w (PyStr "double") c = (set_volume w 50 ;; ret tt) c).
  { unfold handle_knob_action, bind at 1, gets at 1.
    rewrite Hz, (str_truthy_some z Hne). reflexivity. }
  assert (Hh : handle_knob_action w (PyStr "hold") c = (set_volume w 0 ;; ret tt) c).
  { unfold handle_knob_action, bind at 1, gets at 1.
    rewrite Hz, (str_truthy_some z Hne). reflexivity. }
  rewrite Hd, Hh, !snd_discard.
  rewrite !(set_volume_bound w c z _ Hz (str_truthy_some z Hne) Ha).
  split; reflexivity.
Qed.

Lemma double_and_hold_set_fixed_volume_witness :
  let w := scripted_world 1000 0 (Some 98) in
  trace (snd (handle_knob_action w (PyStr "double") kitchen_controller)) =
    [EvSetVolumePercent "o2" 50] /\
  trace (snd (handle_knob_action w (PyStr "hold") kitchen_controller)) =
    [EvSetVolumePercent "o2" 0].
Proof.
  intros w.
  refine (double_and_hold_set_fixed_volume w kitchen_controller "o2" _ _ _);
    vm_compute; solve [reflexivity | discriminate].
Defined.

(** C6: with no zone bound ([zone_output_id] is [None] or empty), the action
    handler returns for every action value without a call to the control
    service and leaves every attribute, the trace included, as it was. *)
Theorem handle_knob_action_without_zone (w : world) (action : pyval) (c : controller) :
  str_truthy (zone_output_id c) = false ->
  handle_knob_action w action c = (Ret tt, c).
Proof.
  intros H. unfold handle_knob_action, bind, gets. now rewrite H.
Qed.

Lemma handle_knob_action_without_zone_witness :
  handle_knob_action (scripted_world 0 0 (Some 40)) (PyStr "rotate_right")
    (set_roonapi (Some 0%nat) fresh_controller) =
  (Ret tt, set_roonapi (Some 0%nat) fresh_controller).
Proof.
  apply (handle_knob_action_without_zone (scripted_world 0 0 (Some 40))
           (PyStr "rotate_right") (set_roonapi (Some 0%nat) fresh_controller)).
  reflexivity.
Defined.

(** * Volume changes off a failed read *)

Section FailedRead.

Variable w : world.

(** A read that comes back as [None] ends [change_volume] on the spot: the
    state is the one the read left, and the read issued no
    [set_volume_percent] call. *)
Lemma change_volume_aborts_on_none c c1 delta :
  get_current_volume w c = (Ret PyNone, c1) ->
  change_volume w delta c = (Ret false, c1) /\ trace_grows_by not_set_volume c c1.
Proof.
  intros H. split.
  - unfold change_volume. now rewrite (bind_run _ _ _ _ _ H).
  - exact (get_current_volume_sets_nothing w _ _ _ H).
Qed.

(** A read that comes back as [False], the wrapper's failure value, is not
    [None]: [change_volume] adds the delta to it and goes on to [set_volume]. *)
Lemma change_volume_goes_on_after_false c c1 delta :
  get_current_volume w c = (Ret (PyBool false), c1) ->
  change_volume w delta c =
  (done <- set_volume w (clamp_percent delta) ;;
   if py_truthy done then ret true else ret false) c1.
Proof.
  intros H. unfold change_volume. now rewrite (bind_run _ _ _ _ _ H).
Qed.

End FailedRead.


(** * The transport callbacks *)

(** C7: on a disconnect with a nonzero reason code the handler marks the
    transport disconnected, sleeps 2 seconds and then calls [reconnect] once;
    with reason code zero it only marks the transport disconnected: nothing
    is added to the trace. *)
Theorem on_mqtt_disconnect_reconnects_once
    (w : world) (reason_code : Z) (c : controller) :
  (reason_code <> 0 ->
   exists c', on_mqtt_disconnect w reason_code c = (Ret tt, c') /\
              mqtt_connected c' = false /\
              trace c' = (trace c ++ [EvSleep 2; EvMqttReconnect])%list) /\
  (reason_code = 0 ->
   on_mqtt_disconnect w reason_code c = (Ret tt, set_mqtt_connected false c)).
Proof.
  split.
  - intros H. apply Z.eqb_neq in H.
    exists (next_tick (record_event EvMqttReconnect
              (record_event (EvSleep 2) (set_mqtt_connected false c)))).
    unfold on_mqtt_disconnect, bind at 1, modify at 1. rewrite H. simpl negb.
    cbv iota.
    unfold try_except, time_sleep, mqtt_reconnect, perform, consult, bind, modify,
      ret, raise. simpl.
    destruct (w_mqtt_reconnect w (tick c)); simpl; repeat split;
      now rewrite <- app_assoc.
  - intros H. subst. reflexivity.
Qed.

Lemma on_mqtt_disconnect_reconnects_once_witness :
  (exists c', on_mqtt_disconnect (scripted_world 0 0 None) 7 kitchen_controller
              = (Ret tt, c') /\
              mqtt_connected c' = false /\
              trace c' = [EvSleep 2; EvMqttReconnect]) /\
  on_mqtt_disconnect (scripted_world 0 0 None) 0 kitchen_controller =
  (Ret tt, set_mqtt_connected false kitchen_controller).
Proof.
  split.
  - apply (proj1 (on_mqtt_disconnect_reconnects_once (scripted_world 0 0 None) 7
                    kitchen_controller)).
    discriminate.
  - apply (proj2 (on_mqtt_disconnect_reconnects_once (scripted_world 0 0 None) 0
                    kitchen_controller)).
    reflexivity.
Defined.



(** * Zone resolution *)

Lemma prefix_iff_append (s t : string) :
  String.prefix s t = true <-> exists rest, t = s ++ rest.
Proof.
  revert t. induction s as [|a s IH]; intros t.
  - split; [intros _; now exists t | intros _; now destruct t].
  - destruct t as [|b t]; simpl.
    + split; [discriminate | intros [rest H]; discriminate].
    + destruct (ascii_dec a b) as [->|Hne].
      * rewrite IH. split; intros [rest H]; exists rest; [now rewrite H | now inversion H].
      * split; [discriminate | intros [rest H]; simpl in H; congruence].
Qed.

(** [py_str_in] is the substring test. *)
Lemma py_str_in_nil needle :
  py_str_in needle "" = String.prefix needle "" || false.
Proof. reflexivity. Qed.

Lemma py_str_in_cons needle a hay :
  py_str_in needle (String a hay) =
  String.prefix needle (String a hay) || py_str_in needle hay.
Proof. reflexivity. Qed.

Lemma py_str_in_iff (needle hay : string) :
  py_str_in needle hay = true <->
  exists before after, hay = before ++ needle ++ after.
Proof.
  induction hay as [|a hay IH].
  - rewrite py_str_in_nil, orb_false_r, prefix_iff_append. split.
    + intros [rest H]. now exists "", rest.
    + intros [before [after H]]. destruct before; [now exists after | discriminate].
  - rewrite py_str_in_cons, orb_true_iff, prefix_iff_append, IH. split.
    + intros [[rest H] | [before [after H]]].
      * now exists "", rest.
      * exists (String a before), after. simpl. now rewrite H.
    + intros [before [after H]]. destruct before as [|b before]; simpl in H.
      * left. now exists after.
      * right. inversion H. now exists before, after.
Qed.

Lemma name_matches_iff name info :
  name_matches name info = true <-> matches_name name info.
Proof.
  unfold name_matches, matches_name, shown_name.
  now rewrite orb_true_iff, String.eqb_eq, py_str_in_iff.
Qed.

Lemma output_known_iff id outputs :
  output_known id outputs = true <-> In id (map fst outputs).
Proof.
  unfold output_known. rewrite existsb_exists, in_map_iff. split.
  - intros [o [Hin He]]. apply String.eqb_eq in He. now exists o.
  - intros [o [He Hin]]. exists o. split; [exact Hin|]. now apply String.eqb_eq.
Qed.

Lemma find_first {A} (f : A -> bool) before x after :
  Forall (fun y => f y = false) before -> f x = true ->
  find f (before ++ x :: after) = Some x.
Proof.
  induction 1 as [|y before Hy _ IH]; intros Hx; simpl.
  - now rewrite Hx.
  - rewrite Hy. now apply IH.
Qed.

Lemma find_none_iff {A} (f : A -> bool) l :
  find f l = None <-> forall x, In x l -> f x = false.
Proof.
  split; [apply find_none|].
  induction l as [|y l IH]; intros H; simpl; [reflexivity|].
  rewrite (H y (or_introl eq_refl)). apply IH. intros x Hx. apply H. now right.
Qed.

(** When the identifier does not decide, the result is the name search. *)
Lemma lookup_zone_by_name zone_id zone_name outputs :
  ~ id_usable zone_id outputs ->
  lookup_zone zone_id zone_name outputs =
  match zone_name with
  | Some name =>
      if str_truthy zone_name then
        match find (fun o => name_matches name (snd o)) outputs with
        | Some (output_id, _) => Some output_id
        | None => None
        end
      else None
  | None => None
  end.
Proof.
  intros Hno. unfold lookup_zone. destruct zone_id as [id|]; [|reflexivity].
  destruct (str_truthy (Some id) && output_known id outputs) eqn:E; [|reflexivity].
  exfalso. apply Hno. apply andb_true_iff in E. destruct E as [Ht Hk].
  exists id. repeat split.
  - simpl in Ht. apply negb_true_iff in Ht. now apply String.eqb_neq.
  - now apply output_known_iff.
Qed.

Section Resolution.

Variable w : world.

(** With the API object in place and the outputs enumerated, one attempt
    yields what [lookup_zone] finds. *)
Lemma _find_zone_run zone_id zone_name c outs :
  roonapi c <> None -> w_outputs w (tick c) = Ret (Some outs) ->
  _find_zone w zone_id zone_name c =
  (Ret (py_of_output_id (lookup_zone zone_id zone_name outs)), next_tick c).
Proof.
  intros Ha Ho. unfold _find_zone, bind at 1, gets.
  destruct (roonapi c); [|congruence].
  unfold roonapi_outputs, consult_or_raise, consult, bind. now rewrite Ho.
Qed.

(** A non-empty output id found on the first attempt is returned at once. *)
Lemma find_zone_output_id_first_attempt zone_id zone_name retries wait_time c outs id :
  roonapi c <> None -> w_outputs w (tick c) = Ret (Some outs) ->
  lookup_zone zone_id zone_name outs = Some id -> id <> "" ->
  find_zone_output_id w zone_id zone_name (S retries) wait_time c =
  (Ret (Some id), mark_success w (next_tick c)).
Proof.
  intros Ha Ho Hl Hne. unfold find_zone_output_id. simpl find_zone_loop.
  pose proof (_find_zone_run zone_id zone_name c outs Ha Ho) as Hrun.
  rewrite Hl in Hrun. simpl in Hrun.
  rewrite (bind_run _ _ _ _ _
             (robust_roon_command_first_try w _ 2 c _ _ Ha Hrun)).
  assert (Ht : py_truthy (PyStr id) = true).
  { unfold py_truthy. apply negb_true_iff. now apply String.eqb_neq. }
  now rewrite Ht.
Qed.

End Resolution.

(** C5: zone resolution gives priority to the identifier and takes the first
    name match in enumeration order.  If the identifier is set and is a key
    of the enumerated outputs, the lookup yields it, whatever the name; else,
    if the name is set, the lookup yields the first output whose display name
    equals the name or contains it as a substring, and none if there is no
    such output; with no usable identifier and no name it yields none.  One
    attempt of [find_zone_output_id] yields what the lookup finds, and a
    non-empty output id found on the first attempt is returned at once, with
    nothing added to the trace. *)
Theorem find_zone_priority_and_first_match
    (zone_id zone_name : option string) (outputs : outputs_t) :
  (forall id,
      zone_id = Some id -> id <> "" -> In id (map fst outputs) ->
      lookup_zone zone_id zone_name outputs = Some id) /\
  (forall name,
      ~ id_usable zone_id outputs -> zone_name = Some name -> name <> "" ->
      (forall before output_id info after,
          outputs = (before ++ (output_id, info) :: after)%list ->
          Forall (fun o => ~ matches_name name (snd o)) before ->
          matches_name name info ->
          lookup_zone zone_id zone_name outputs = Some output_id) /\
      ((forall o, In o outputs -> ~ matches_name name (snd o)) ->
       lookup_zone zone_id zone_name outputs = None)) /\
  (~ id_usable zone_id outputs -> str_truthy zone_name = false ->
   lookup_zone zone_id zone_name outputs = None) /\
  (forall w c,
      roonapi c <> None -> w_outputs w (tick c) = Ret (Some outputs) ->
      _find_zone w zone_id zone_name c =
        (Ret (py_of_output_id (lookup_zone zone_id zone_name outputs)), next_tick c) /\
      forall id retries wait_time,
        lookup_zone zone_id zone_name outputs = Some id -> id <> "" ->
        exists c',
          find_zone_output_id w zone_id zone_name (S retries) wait_time c =
            (Ret (Some id), c') /\
          trace c' = trace c).
Proof.
  split; [|split; [|split]].
  - intros id Hz Hne Hin. subst zone_id. unfold lookup_zone.
    rewrite (str_truthy_some id Hne).
    now rewrite (proj2 (output_known_iff id outputs) Hin).
  - intros name Hno Hn Hne. rewrite (lookup_zone_by_name _ _ _ Hno). subst zone_name.
    rewrite (str_truthy_some name Hne). split.
    + intros before output_id info after Ho Hb Hm. subst outputs.
      rewrite (find_first _ before (output_id, info) after); [reflexivity| |].
      * eapply Forall_impl; [|exact Hb]. intros o Ho. simpl in Ho.
        destruct (name_matches name (snd o)) eqn:E; [|reflexivity].
        exfalso. apply Ho. now apply name_matches_iff.
      * now apply name_matches_iff.
    + intros Hnone.
      rewrite (proj2 (find_none_iff _ outputs)); [reflexivity|].
      intros o Ho. destruct (name_matches name (snd o)) eqn:E; [|reflexivity].
      exfalso. apply (Hnone o Ho). now apply name_matches_iff.
  - intros Hno Hn. rewrite (lookup_zone_by_name _ _ _ Hno).
    destruct zone_name; [now rewrite Hn | reflexivity].
  - intros w c Ha Ho. split; [now apply _find_zone_run|].
    intros id retries wait_time Hl Hne. exists (mark_success w (next_tick c)).
    split; [|reflexivity].
    now apply (find_zone_output_id_first_attempt w _ _ _ _ c outputs).
Qed.

Lemma find_zone_priority_and_first_match_witness :
  lookup_zone (Some "o2") (Some "Kitchen Display") kitchen_outputs = Some "o2" /\
  lookup_zone None (Some "Kitchen") kitchen_outputs = Some "o1" /\
  lookup_zone None (Some "Attic") kitchen_outputs = None /\
  lookup_zone None None kitchen_outputs = None /\
  exists c',
    find_zone_output_id (scripted_world 0 0 None) None (Some "Kitchen") 5 2
      kitchen_controller = (Ret (Some "o1"), c') /\
    trace c' = trace kitchen_controller.
Proof.
  assert (Hno : ~ id_usable None kitchen_outputs).
  { intros [id [H _]]. discriminate. }
  split; [|split; [|split; [|split]]].
  - apply (proj1 (find_zone_priority_and_first_match
                    (Some "o2") (Some "Kitchen Display") kitchen_outputs) "o2").
    + reflexivity.
    + discriminate.
    + simpl. right. now left.
  - apply (proj1 (proj1 (proj2 (find_zone_priority_and_first_match
                                  None (Some "Kitchen") kitchen_outputs))
                    "Kitchen" Hno eq_refl ltac:(discriminate))
             [] "o1" {| display_name := Some "Kitchen Display" |}
             [("o2", {| display_name := Some "Kitchen" |})]).
    + reflexivity.
    + constructor.
    + right. now exists "", " Display".
  - apply (proj2 (proj1 (proj2 (find_zone_priority_and_first_match
                                  None (Some "Attic") kitchen_outputs))
                    "Attic" Hno eq_refl ltac:(discriminate))).
    intros o Ho Hm. apply name_matches_iff in Hm.
    simpl in Ho. destruct Ho as [<- | [<- | []]]; vm_compute in Hm; discriminate.
  - apply (proj1 (proj2 (proj2 (find_zone_priority_and_first_match
                                  None None kitchen_outputs))) Hno).
    reflexivity.
  - apply (proj2 (proj2 (proj2 (proj2 (find_zone_priority_and_first_match
                                         None (Some "Kitchen") kitchen_outputs)))
                    (scripted_world 0 0 None) kitchen_controller
                    ltac:(discriminate) eq_refl)
             "o1" 4%nat 2).
    + reflexivity.
    + discriminate.
Defined.

(** * Saving the settings *)

Lemma prefix_substring (n : nat) (s : string) :
  String.prefix (String.substring 0 n s) s = true.
Proof.
  revert n. induction s as [|a s IH]; intros [|n]; simpl; try reflexivity.
  destruct (ascii_dec a a) as [_|H]; [apply IH | contradiction].
Qed.

(** C4, as the code has it: a save ends in one of three ways.  It returns
    [True] with the whole new text in the file; or it returns [False] with the
    file untouched (the open failed); or it returns [False] with the file
    holding only the part of the new text written before the failure, the
    previous content being gone.  It never raises. *)
Theorem save_config_dict_outcomes
    (json_dump : settings -> string) (fs : write_result)
    (config_dict : settings) (file : option string) :
  let result := save_config_dict json_dump fs config_dict file in
  (fst result = true /\ snd result = Some (json_dump config_dict)) \/
  (fst result = false /\ snd result = file) \/
  (fst result = false /\
   exists partial, snd result = Some partial /\
                   String.prefix partial (json_dump config_dict) = true).
Proof.
  destruct fs as [|written|]; simpl.
  - right. left. now split.
  - right. right. split; [reflexivity|].
    eexists. split; [reflexivity | apply prefix_substring].
  - left. now split.
Qed.

(** C4 as stated fails: when the write raises after 9 characters, the save
    returns [False] and the file holds 9 characters of the new text, not the
    settings that were saved before. *)
Lemma save_config_dict_not_atomic :
  ~ save_is_atomic json_dump_plain (WriteRaises 9) kitchen_config
      (Some (json_dump_plain default_config)).
Proof.
  unfold save_is_atomic. vm_compute. intros [[H _] | H]; discriminate.
Qed.

(** * Supplements *)

Section Supplements.

Variable w : world.

(** ** The zone is bound through the API object *)

Lemma _find_zone_truthy zone_id zone_name ca cb v :
  _find_zone w zone_id zone_name ca = (Ret v, cb) -> py_truthy v = true ->
  roonapi cb <> None.
Proof.
  unfold _find_zone, bind at 1, gets. intros H Ht.
  destruct (roonapi ca) as [h|] eqn:Ha.
  - unfold roonapi_outputs, consult_or_raise, consult, bind in H.
    destruct (w_outputs w (tick ca)) as [[outs|]|]; inversion H; subst.
    simpl. rewrite Ha. discriminate.
  - inversion H; subst. discriminate.
Qed.

Lemma find_zone_loop_api zone_id zone_name retries wait_time todo c id c' :
  find_zone_loop w zone_id zone_name retries wait_time todo c = (Ret (Some id), c') ->
  roonapi c' <> None.
Proof.
  revert c. induction todo as [|t IH]; intros c H; simpl in H; [discriminate|].
  unfold bind at 1 in H.
  destruct (robust_roon_command w (_find_zone w zone_id zone_name) 3 c)
    as [[result|] c1] eqn:E; [|discriminate].
  destruct (py_truthy result) eqn:Ht.
  - inversion H; subst.
    apply robust_loop_result in E. destruct E as [E | [ca [cb [E Em]]]].
    + subst result. discriminate.
    + subst c'. pose proof (_find_zone_truthy _ _ _ _ _ E Ht) as Hb.
      simpl. exact Hb.
  - destruct (retries - S t <? retries - 1)%nat; [|discriminate].
    unfold bind, time_sleep, modify in H. now apply IH in H.
Qed.

Lemma find_zone_loop_returns zone_id zone_name retries wait_time todo :
  never_raises (find_zone_loop w zone_id zone_name retries wait_time todo).
Proof.
  induction todo as [|t IH]; intros c; simpl; [discriminate|].
  unfold bind at 1.
  pose proof (robust_roon_command_never_raises w (_find_zone w zone_id zone_name) 3 c) as Hn.
  destruct (robust_roon_command w (_find_zone w zone_id zone_name) 3 c)
    as [[result|] c1]; [|now simpl in Hn].
  destruct (py_truthy result); [simpl; discriminate|].
  destruct (retries - S t <? retries - 1)%nat; [|simpl; discriminate].
  unfold bind, time_sleep, modify. apply IH.
Qed.

(** Wherever it starts from, binding the configured zone leaves a state in
    which a bound zone has its API object. *)
Lemma bind_configured_zone_api c :
  fst (bind_configured_zone w c) = Ret tt /\
  bound_zone_has_api (snd (bind_configured_zone w c)).
Proof.
  unfold bind_configured_zone, bind at 1, gets. unfold bind.
  pose proof (find_zone_loop_returns (zone_id (config c)) (zone_name (config c))
                3 1 3 c) as Hn.
  pose proof (find_zone_loop_api (zone_id (config c)) (zone_name (config c))
                3 1 3 c) as Ha.
  unfold find_zone_output_id.
  destruct (find_zone_loop w (zone_id (config c)) (zone_name (config c)) 3 1 3 c)
    as [[found|] c1]; [|now simpl in Hn].
  simpl. split; [reflexivity|]. intros Hb.
  destruct found as [id|]; [|discriminate].
  exact (Ha id c1 eq_refl).
Qed.

(** Handling a knob action keeps it so. *)
Lemma handle_knob_action_keeps_invariant action c :
  bound_zone_has_api c ->
  bound_zone_has_api (snd (handle_knob_action w action c)).
Proof.
  intros Hi Hb.
  destruct (handle_knob_action w action c) as [o c'] eqn:E. simpl in *.
  destruct (handle_knob_action_keeps_binding w action _ _ _ E) as [Hz _].
  apply (handle_knob_action_keeps_api w action _ _ _ E).
  apply Hi. now rewrite <- Hz.
Qed.

(** With the API object in place the volume read is run once and yields
    [None] or a number, never the wrapper's [False]. *)
Lemma get_current_volume_with_api c :
  roonapi c <> None ->
  exists v c1, get_current_volume w c = (Ret v, c1) /\
               (v = PyNone \/ exists n, v = PyInt n).
Proof.
  intros Ha.
  destruct (str_truthy (zone_output_id c)) eqn:Ht.
  - destruct (zone_output_id c) as [z|] eqn:Hz; [|discriminate].
    eexists _, _. split.
    + apply robust_roon_command_first_try; [exact Ha|].
      exact (_get_volume_bound w c z Hz Ht Ha).
    + destruct (w_get_volume_percent w (tick c) z) as [[n|]|]; simpl; eauto.
  - eexists _, _. split.
    + apply robust_roon_command_first_try; [exact Ha|].
      apply _get_volume_unavailable. now left.
    + now left.
Qed.

(** ** Relations respected by the message handler *)

Lemma steps_when_present (R : controller -> controller -> Prop) key payload store :
  (forall c, R c c) -> (forall a b c, R a b -> R b c -> R a c) ->
  (forall v, steps R (store v)) ->
  steps R (when_present key payload store).
Proof.
  intros Hr Ht Hs. unfold when_present.
  apply steps_bind; [exact Ht | |].
  - destruct payload; simpl; first [now apply steps_ret | now apply steps_raise].
  - intros [|]; [|now apply steps_ret].
    apply steps_bind; [exact Ht | | exact Hs].
    unfold py_getitem. destruct payload; try (now apply steps_raise).
    destruct (find _ fields) as [[k v]|];
      [now apply steps_ret | now apply steps_raise].
Qed.

Lemma steps_on_mqtt_message (R : controller -> controller -> Prop) json_loads raw :
  (forall c, R c c) -> (forall a b c, R a b -> R b c -> R a c) ->
  (forall c, R c (next_tick c)) ->
  (forall t c, R c (set_knob_last_seen t c)) ->
  (forall v c, R c (set_knob_battery v c)) ->
  (forall v c, R c (set_knob_voltage v c)) ->
  (forall v c, R c (set_knob_linkquality v c)) ->
  (forall action, steps R (handle_knob_action w action)) ->
  steps R (on_mqtt_message w json_loads raw).
Proof.
  intros Hr Ht Htick Hseen Hb Hv Hl Hh.
  unfold on_mqtt_message, on_mqtt_message_with.
  apply steps_try_except; [exact Ht | | now apply steps_ret].
  apply steps_bind; [exact Ht | |].
  { destruct (json_loads raw); [now apply steps_ret | now apply steps_raise]. }
  intros payload.
  apply steps_bind; [exact Ht | now apply steps_consult |]. intros now.
  apply steps_bind; [exact Ht | apply steps_modify; intros; apply Hseen |]. intros _.
  apply steps_bind; [exact Ht | |].
  { apply steps_when_present; auto. intros v. apply steps_modify. intros; apply Hb. }
  intros _.
  apply steps_bind; [exact Ht | |].
  { apply steps_when_present; auto. intros v. apply steps_modify. intros; apply Hv. }
  intros _.
  apply steps_bind; [exact Ht | |].
  { apply steps_when_present; auto. intros v. apply steps_modify. intros; apply Hl. }
  intros _.
  now apply steps_when_present.
Qed.

(** Handling a message keeps a bound zone with its API object. *)
Lemma on_mqtt_message_keeps_invariant json_loads raw c :
  bound_zone_has_api c ->
  bound_zone_has_api (snd (on_mqtt_message w json_loads raw c)).
Proof.
  intros Hi Hb.
  destruct (on_mqtt_message w json_loads raw c) as [o c'] eqn:E. simpl in *.
  assert (Hk : keeps_binding c c').
  { revert E. apply steps_on_mqtt_message;
      try solve_keeps_binding.
    apply handle_knob_action_keeps_binding. }
  assert (Ha : keeps_api c c').
  { revert E. apply steps_on_mqtt_message;
      try solve_keeps_api.
    apply handle_knob_action_keeps_api. }
  apply Ha, Hi. destruct Hk as [Hz _]. now rewrite <- Hz.
Qed.

(** ** Payloads that decode to something other than a record *)

Lemma when_present_not_a_record key payload store c :
  not_a_record payload ->
  when_present key payload store c = (Ret tt, c) \/
  when_present key payload store c = (Exc, c).
Proof.
  intros Hn. unfold when_present, bind, py_contains, py_getitem.
  destruct payload; simpl in *; try contradiction; try (now right).
  - destruct (py_str_in key s); [now right | now left].
  - destruct (existsb _ _); [now right | now left].
Qed.

(** A payload that decodes to a JSON value that is not an object has its
    arrival time recorded as last-seen; nothing else changes, the action
    handler is not called and no exception leaves the handler. *)
Lemma on_mqtt_message_not_a_record dispatch json_loads raw payload c :
  json_loads raw = Ret payload -> not_a_record payload ->
  on_mqtt_message_with w dispatch json_loads raw c =
  (Ret tt, set_knob_last_seen (Some (w_time w (tick c))) (next_tick c)).
Proof.
  intros Hd Hn. unfold on_mqtt_message_with, try_except, bind at 1.
  rewrite Hd. unfold ret at 1, bind at 1, time_time, consult.
  unfold bind at 1, modify at 1.
  set (c1 := set_knob_last_seen _ _).
  unfold bind.
  destruct (when_present_not_a_record "battery" payload
              (fun v => modify (set_knob_battery v)) c1 Hn) as [-> | ->];
    [|reflexivity].
  destruct (when_present_not_a_record "voltage" payload
              (fun v => modify (set_knob_voltage v)) c1 Hn) as [-> | ->];
    [|reflexivity].
  destruct (when_present_not_a_record "linkquality" payload
              (fun v => modify (set_knob_linkquality v)) c1 Hn) as [-> | ->];
    [|reflexivity].
  destruct (when_present_not_a_record "action" payload dispatch c1 Hn)
    as [-> | ->]; reflexivity.
Qed.

End Supplements.

(** * Further properties *)

(** ** setup_roon *)

Section SetupRoon.

Variable w : world.

Lemma same_settings_refl c : same_settings_and_telemetry c c.
Proof. now repeat split. Qed.

Lemma same_settings_trans a b c :
  same_settings_and_telemetry a b -> same_settings_and_telemetry b c ->
  same_settings_and_telemetry a c.
Proof.
  unfold same_settings_and_telemetry. intros H1 H2.
  destruct H1 as (?&?&?&?&?&?&?&?), H2 as (?&?&?&?&?&?&?&?).
  repeat split; congruence.
Qed.

(** One pass of the authorization loop: it returns [True], or it sleeps
    [check_interval] seconds and goes on with one pass less. *)
Lemma wait_for_authorization_pass polls c :
  (exists c1,
      wait_for_authorization w (S polls) c = (Ret true, c1) /\
      trace c1 = trace c /\ roon_connection_healthy c1 = true /\
      roonapi c1 = roonapi c /\ same_settings_and_telemetry c c1) \/
  (exists c1,
      wait_for_authorization w (S polls) c = wait_for_authorization w polls c1 /\
      trace c1 = (trace c ++ [EvSleep 5])%list /\
      roonapi c1 = roonapi c /\ same_settings_and_telemetry c c1).
Proof.
  simpl wait_for_authorization.
  unfold try_except, roonapi_zones, roonapi_outputs, consult_or_raise, perform,
    consult, time_sleep, bind, modify, ret, raise, check_interval.
  simpl.
  destruct (w_zones w (tick c)) as [[zs|]|]; simpl;
    try (destruct (w_outputs w (S (tick c))) as [[os|]|]; simpl);
    try (destruct (w_token_write w (S (S (tick c)))); simpl);
    first [ left; eexists; split; [reflexivity|];
            repeat split; reflexivity
          | right; eexists; split; [reflexivity|];
            repeat split; reflexivity ].
Qed.

(** The whole loop: [n] sleeps of 5 seconds, all [polls] of them when it
    gives up, fewer when it succeeds. *)
Lemma wait_for_authorization_shape polls c :
  exists ok n c',
    wait_for_authorization w polls c = (Ret ok, c') /\
    trace c' = (trace c ++ repeat (EvSleep 5) n)%list /\
    roon_connection_healthy c' = ok /\
    (ok = false -> n = polls) /\ (ok = true -> (n < polls)%nat) /\
    roonapi c' = roonapi c /\ same_settings_and_telemetry c c'.
Proof.
  revert c. induction polls as [|p IH]; intros c.
  - exists false, 0%nat, (set_roon_connection_healthy false c). simpl.
    repeat split; try reflexivity; try discriminate.
    now rewrite app_nil_r.
  - destruct (wait_for_authorization_pass p c)
      as [[c1 (E & Ht & Hh & Ha & Hs)] | [c1 (E & Ht & Ha & Hs)]].
    + exists true, 0%nat, c1. rewrite E. simpl.
      repeat split; try (apply Hs); try assumption; try discriminate; try lia.
      now rewrite app_nil_r.
    + destruct (IH c1) as (ok & n & c' & E' & Ht' & Hh' & Hf & Hk & Ha' & Hs').
      exists ok, (S n), c'. rewrite E, E'.
      split; [reflexivity|]. split.
      { rewrite Ht', Ht, <- app_assoc. reflexivity. }
      split; [exact Hh'|]. split; [intros H; now rewrite (Hf H)|].
      split; [intros H; specialize (Hk H); lia|].
      split; [congruence|]. now apply (same_settings_trans c c1 c').
Qed.

(** [setup_roon] when building the API object raises. *)
Lemma setup_roon_no_api c :
  w_roon_api_new w (tick c) = false ->
  setup_roon w c = (Ret false, set_roon_connection_healthy false (next_tick c)).
Proof.
  intros H. unfold setup_roon, try_except, roon_api_new, perform, consult,
    bind, gets, modify, ret, raise. simpl. now rewrite H.
Qed.

(** [setup_roon] when the API object is built. *)
Lemma setup_roon_with_api c :
  w_roon_api_new w (tick c) = true ->
  setup_roon w c =
  wait_for_authorization w 60
    (set_roonapi (Some (tick c)) (record_event EvRoonApiNew (next_tick c))).
Proof.
  intros H. unfold setup_roon, try_except.
  assert (E : (roon_api_new w ;; wait_for_authorization w
                 (Z.to_nat (max_wait_time / check_interval))) c =
              wait_for_authorization w 60
                (set_roonapi (Some (tick c))
                   (record_event EvRoonApiNew (next_tick c)))).
  { unfold roon_api_new, perform, consult, bind, gets, modify, ret, raise.
    simpl. rewrite H. reflexivity. }
  rewrite E.
  destruct (wait_for_authorization_shape 60
              (set_roonapi (Some (tick c))
                 (record_event EvRoonApiNew (next_tick c))))
    as (ok & n & c' & E' & _).
  now rewrite E'.
Qed.

End SetupRoon.

(** X1: [setup_roon] never raises and its result is the health flag it
    leaves; a [True] result comes with the API object in place, an API object
    that was there is never removed, and the bound zone, the settings, the
    MQTT flag, the time of the last successful command and the telemetry are
    left as they were. *)
Theorem setup_roon_result_is_health (w : world) (c : controller) :
  exists ok c',
    setup_roon w c = (Ret ok, c') /\
    roon_connection_healthy c' = ok /\
    (ok = true -> roonapi c' <> None) /\
    (roonapi c <> None -> roonapi c' <> None) /\
    same_settings_and_telemetry c c'.
Proof.
  destruct (w_roon_api_new w (tick c)) eqn:E.
  - rewrite (setup_roon_with_api w c E).
    destruct (wait_for_authorization_shape w 60
                (set_roonapi (Some (tick c))
                   (record_event EvRoonApiNew (next_tick c))))
      as (ok & n & c' & E' & _ & Hh & _ & _ & Ha & Hs).
    exists ok, c'. rewrite E'. split; [reflexivity|]. split; [exact Hh|].
    simpl in Ha. split; [|split].
    + intros _. rewrite Ha. discriminate.
    + intros _. rewrite Ha. discriminate.
    + exact Hs.
  - exists false, (set_roon_connection_healthy false (next_tick c)).
    rewrite (setup_roon_no_api w c E).
    repeat split; try reflexivity; try discriminate. intros H. exact H.
Qed.

(** X2: the wait of [setup_roon] is bounded.  When building the API object
    raises it fails at once, with nothing added to the trace.  Otherwise the
    trace grows by the construction followed by [n] sleeps of 5 seconds: a
    failure comes after exactly 60 of them (300 seconds), a success after
    fewer. *)
Theorem setup_roon_wait_is_bounded (w : world) (c : controller) :
  exists ok n c',
    setup_roon w c = (Ret ok, c') /\
    ((w_roon_api_new w (tick c) = false /\ ok = false /\ trace c' = trace c) \/
     (w_roon_api_new w (tick c) = true /\
      trace c' = (trace c ++ EvRoonApiNew :: repeat (EvSleep 5) n)%list /\
      (n <= 60)%nat /\ (ok = false <-> n = 60%nat))).
Proof.
  destruct (w_roon_api_new w (tick c)) eqn:E.
  - rewrite (setup_roon_with_api w c E).
    destruct (wait_for_authorization_shape w 60
                (set_roonapi (Some (tick c))
                   (record_event EvRoonApiNew (next_tick c))))
      as (ok & n & c' & E' & Ht & _ & Hf & Hk & _).
    exists ok, n, c'. rewrite E'. split; [reflexivity|]. right.
    split; [reflexivity|]. split.
    { rewrite Ht. simpl. now rewrite <- app_assoc. }
    destruct ok.
    + specialize (Hk eq_refl). split; [lia|]. split; [discriminate | lia].
    + specialize (Hf eq_refl). split; [lia|]. now split.
  - exists false, 0%nat, (set_roon_connection_healthy false (next_tick c)).
    rewrite (setup_roon_no_api w c E). split; [reflexivity|]. left. now repeat split.
Qed.

(** ** robust_roon_command, for any command and any number of attempts *)

Section WrapperOutcome.

Variable w : world.
Variable cmd : M pyval.

Lemma run_command_inv cx o cy :
  run_command w cmd cx = (Ret o, cy) ->
  exists v cb, o = Some v /\ cmd cx = (Ret v, cb) /\ cy = mark_success w cb.
Proof.
  intros Hr. unfold run_command, bind in Hr.
  destruct (cmd cx) as [[v|] cb]; [|discriminate].
  simpl in Hr. inversion Hr. now exists v, cb.
Qed.

(** What one attempt can end in. *)
Lemma robust_attempt_outcome n k c r c' :
  robust_attempt w cmd n k c = (Ret r, c') ->
  match r with
  | Some v =>
      (exists ca cb, cmd ca = (Ret v, cb) /\ c' = mark_success w cb) \/
      (v = PyBool false /\ roon_connection_healthy c' = false)
  | None => (k <? n - 1)%nat = true \/ roon_connection_healthy c' = false
  end.
Proof.
  unfold robust_attempt, try_except. intros E.
  match type of E with context [match ?b c with _ => _ end] =>
    destruct (b c) as [[a|] c2] eqn:B end.
  - inversion E; subst; clear E.
    unfold bind at 1 in B. unfold gets in B.
    destruct (roonapi c).
    + apply run_command_inv in B. destruct B as (v & cb & -> & Ec & ->).
      left. now exists c, cb.
    + unfold bind in B.
      destruct (setup_roon w c) as [[[|]|] c3] eqn:Hs; [| |discriminate].
      * apply run_command_inv in B. destruct B as (v & cb & -> & Ec & ->).
        left. now exists c3, cb.
      * destruct (k <? n - 1)%nat eqn:Hk; simpl in B; inversion B; subst.
        -- now left.
        -- right. now split.
  - destruct (k <? n - 1)%nat eqn:Hk.
    + unfold bind in E. destruct (time_sleep 2 c2) as [[u|] c3]; [|discriminate].
      destruct (setup_roon w c3) as [[ok|] c4]; [|discriminate].
      inversion E. now left.
    + simpl in E. inversion E. now right.
Qed.

Lemma robust_loop_outcome n todo c v c' :
  (todo <= n)%nat ->
  robust_loop w cmd n todo c = (Ret v, c') ->
  (exists ca cb, cmd ca = (Ret v, cb) /\ c' = mark_success w cb) \/
  (v = PyBool false /\
   ((todo = 0%nat /\ c' = c) \/
    ((0 < todo)%nat /\ roon_connection_healthy c' = false))).
Proof.
  revert c. induction todo as [|t IH]; intros c Hle H; simpl in H.
  - inversion H. right. split; [reflexivity|]. now left.
  - unfold bind in H.
    destruct (robust_attempt w cmd n (n - S t) c) as [[r|] c1] eqn:E;
      [|discriminate].
    apply robust_attempt_outcome in E. destruct r as [v1|].
    + inversion H; subst; clear H.
      destruct E as [E | [-> Hh]]; [now left|].
      right. split; [reflexivity|]. right. split; [lia | exact Hh].
    + apply IH in H; [|lia].
      destruct H as [H | [-> [[-> ->] | [Ht Hh]]]]; [now left | |].
      * right. split; [reflexivity|]. right. split; [lia|].
        destruct E as [E | E]; [|exact E].
        apply Nat.ltb_lt in E. lia.
      * right. split; [reflexivity|]. right. split; [lia | exact Hh].
Qed.

(** With no API object and a reconnection that fails, an attempt does not
    run the command. *)
Lemma robust_attempt_no_api n k c :
  roonapi c = None -> w_roon_api_new w (tick c) = false ->
  robust_attempt w cmd n k c =
  if (k <? n - 1)%nat
  then (Ret None,
        record_event (EvSleep 3) (set_roon_connection_healthy false (next_tick c)))
  else (Ret (Some (PyBool false)),
        set_roon_connection_healthy false
          (set_roon_connection_healthy false (next_tick c))).
Proof.
  intros Ha Hn. unfold robust_attempt, try_except, bind at 1, gets.
  rewrite Ha. unfold bind at 1. rewrite (setup_roon_no_api w c Hn).
  now destruct (k <? n - 1)%nat.
Qed.

Lemma robust_loop_no_api n todo c :
  (todo <= n)%nat -> (0 < todo)%nat ->
  roonapi c = None -> (forall t, w_roon_api_new w t = false) ->
  exists c',
    robust_loop w cmd n todo c = (Ret (PyBool false), c') /\
    trace c' = (trace c ++ repeat (EvSleep 3) (todo - 1))%list /\
    roon_connection_healthy c' = false /\ roonapi c' = None.
Proof.
  intros Hle Hpos Ha Hn. revert c Ha.
  induction todo as [|t IH]; intros c Ha; [lia|].
  simpl robust_loop. unfold bind.
  rewrite (robust_attempt_no_api n (n - S t) c Ha (Hn _)).
  destruct t as [|t].
  - assert (E : (n - 1 <? n - 1)%nat = false) by apply Nat.ltb_irrefl.
    rewrite E. eexists. split; [reflexivity|]. simpl.
    repeat split; [now rewrite app_nil_r | exact Ha].
  - assert (E : (n - S (S t) <? n - 1)%nat = true) by (apply Nat.ltb_lt; lia).
    rewrite E.
    destruct (IH ltac:(lia) ltac:(lia)
                (record_event (EvSleep 3)
                   (set_roon_connection_healthy false (next_tick c))) Ha)
      as (c' & E' & Ht & Hh & Ha').
    exists c'. rewrite E'. split; [reflexivity|]. split; [|now split].
    rewrite Ht. simpl. rewrite Nat.sub_0_r, <- app_assoc. reflexivity.
Qed.

End WrapperOutcome.

Lemma robust_loop_no_api_any_command w cmd cmd' n todo c :
  roonapi c = None -> (forall t, w_roon_api_new w t = false) ->
  robust_loop w cmd n todo c = robust_loop w cmd' n todo c.
Proof.
  intros Ha Hn. revert c Ha. induction todo as [|t IH]; intros c Ha; [reflexivity|].
  simpl robust_loop. unfold bind.
  rewrite !(robust_attempt_no_api w _ n (n - S t) c Ha (Hn _)).
  destruct (n - S t <? n - 1)%nat; [|reflexivity].
  now apply IH.
Qed.

(** X3: for every command and every positive number of attempts the wrapper
    returns without raising, and the health flag it leaves tells what
    happened: either the flag is [True] and the value returned is the one the
    command returned in a run that did not raise, or the flag is [False] and
    the wrapper returned [False]. *)
Theorem robust_roon_command_health_tells_outcome
    (w : world) (cmd : M pyval) (n : nat) (c : controller) :
  exists v c',
    robust_roon_command w cmd (S n) c = (Ret v, c') /\
    ((roon_connection_healthy c' = true /\
      exists ca cb, cmd ca = (Ret v, cb) /\ c' = mark_success w cb) \/
     (roon_connection_healthy c' = false /\ v = PyBool false)).
Proof.
  pose proof (robust_roon_command_never_raises w cmd (S n) c) as Hn.
  destruct (robust_roon_command w cmd (S n) c) as [[v|] c'] eqn:E;
    [|now simpl in Hn].
  exists v, c'. split; [reflexivity|].
  apply robust_loop_outcome in E; [|lia].
  destruct E as [(ca & cb & Ec & ->) | [-> [[H _] | [_ Hh]]]].
  - left. split; [reflexivity|]. now exists ca, cb.
  - discriminate.
  - right. now split.
Qed.

(** X4: with no API object and a reconnection that fails every time, the
    wrapper gives up without running the command: whatever the command is, it
    returns [False], marks the session unhealthy and has slept 3 seconds
    between consecutive attempts, and nothing else is in the trace. *)
Theorem robust_roon_command_without_api_never_runs_command
    (w : world) (cmd : M pyval) (n : nat) (c : controller) :
  roonapi c = None -> (forall t, w_roon_api_new w t = false) ->
  exists c',
    robust_roon_command w cmd (S n) c = (Ret (PyBool false), c') /\
    trace c' = (trace c ++ repeat (EvSleep 3) n)%list /\
    roon_connection_healthy c' = false /\
    forall cmd', robust_roon_command w cmd' (S n) c = (Ret (PyBool false), c').
Proof.
  intros Ha Hn.
  destruct (robust_loop_no_api w cmd (S n) (S n) c (le_n _) (Nat.lt_0_succ _) Ha Hn)
    as (c' & E & Ht & Hh & _).
  exists c'. split; [exact E|]. split.
  { rewrite Ht. simpl. now rewrite Nat.sub_0_r. }
  split; [exact Hh|]. intros cmd'.
  unfold robust_roon_command.
  now rewrite (robust_loop_no_api_any_command w cmd' cmd (S n) (S n) c Ha Hn).
Qed.

Lemma robust_roon_command_without_api_never_runs_command_witness :
  exists c',
    robust_roon_command (steady_world kitchen_outputs kitchen_zones (fun _ => true))
      (_set_volume (steady_world kitchen_outputs kitchen_zones (fun _ => true)) 50)
      3 detached_controller = (Ret (PyBool false), c') /\
    trace c' = [EvSleep 3; EvSleep 3] /\
    roon_connection_healthy c' = false.
Proof.
  destruct (robust_roon_command_without_api_never_runs_command
              (steady_world kitchen_outputs kitchen_zones (fun _ => true))
              (_set_volume (steady_world kitchen_outputs kitchen_zones (fun _ => true)) 50)
              2 detached_controller eq_refl (fun _ => eq_refl))
    as (c' & E & Ht & Hh & _).
  exists c'. now repeat split.
Defined.

(** ** Commands that do not raise are run at most once *)

Section RunOnce.

Variable w : world.

Lemma connection_steps_refl c : connection_steps c c.
Proof. split; [apply trace_grows_refl | apply keeps_binding_refl]. Qed.

Lemma connection_steps_trans a b c :
  connection_steps a b -> connection_steps b c -> connection_steps a c.
Proof.
  intros [H1 H2] [H3 H4]. split.
  - eapply trace_grows_trans; eassumption.
  - eapply keeps_binding_trans; eassumption.
Qed.

Lemma connection_steps_same c c' :
  trace c' = trace c -> zone_output_id c' = zone_output_id c ->
  config c' = config c -> connection_steps c c'.
Proof. intros Ht Hz Hc. split; [now apply trace_grows_same | now split]. Qed.

Lemma connection_steps_event e c :
  connection_event e -> connection_steps c (record_event e c).
Proof. intros H. split; [now apply trace_grows_event | now split]. Qed.

Lemma setup_roon_connection_steps : steps connection_steps (setup_roon w).
Proof.
  apply steps_setup_roon.
  - apply connection_steps_refl.
  - apply connection_steps_trans.
  - intros c. now apply connection_steps_same.
  - intros n c. now apply connection_steps_event.
  - intros c. now apply connection_steps_event.
  - intros h c. now apply connection_steps_same.
  - intros b c. now apply connection_steps_same.
Qed.

Variable cmd : M pyval.
Hypothesis cmd_returns : never_raises cmd.

Lemma run_command_returns c :
  exists v cb, cmd c = (Ret v, cb) /\
               run_command w cmd c = (Ret (Some v), mark_success w cb).
Proof.
  pose proof (cmd_returns c) as H.
  destruct (cmd c) as [[v|] cb] eqn:E; [|now simpl in H].
  exists v, cb. split; [reflexivity|]. now apply run_command_ret.
Qed.

Lemma robust_attempt_runs_once n k c r c1 :
  robust_attempt w cmd n k c = (Ret r, c1) ->
  match r with
  | Some v =>
      (v = PyBool false /\ connection_steps c c1) \/
      (exists ca cb, connection_steps c ca /\ cmd ca = (Ret v, cb) /\
                     c1 = mark_success w cb)
  | None => connection_steps c c1
  end.
Proof.
  unfold robust_attempt, try_except, bind at 1, gets.
  destruct (roonapi c) as [h|].
  - destruct (run_command_returns c) as (v & cb & Ec & Er). rewrite Er.
    intros E. inversion E; subst. right. exists c, cb.
    split; [apply connection_steps_refl | now split].
  - unfold bind at 1.
    destruct (setup_roon w c) as [[[|]|] c3] eqn:Hs.
    + pose proof (setup_roon_connection_steps _ _ _ Hs) as Hc.
      destruct (run_command_returns c3) as (v & cb & Ec & Er). rewrite Er.
      intros E. inversion E; subst. right. now exists c3, cb.
    + pose proof (setup_roon_connection_steps _ _ _ Hs) as Hc.
      destruct (k <? n - 1)%nat; simpl; intros E; inversion E; subst.
      * eapply connection_steps_trans; [exact Hc|].
        now apply connection_steps_event.
      * left. split; [reflexivity|].
        eapply connection_steps_trans; [exact Hc|].
        now apply connection_steps_same.
    + pose proof (setup_roon_never_raises w c) as Hn. rewrite Hs in Hn.
      now simpl in Hn.
Qed.

Lemma robust_loop_runs_once n todo c v c' :
  robust_loop w cmd n todo c = (Ret v, c') ->
  (v = PyBool false /\ connection_steps c c') \/
  (exists ca cb, connection_steps c ca /\ cmd ca = (Ret v, cb) /\
                 c' = mark_success w cb).
Proof.
  revert c. induction todo as [|t IH]; intros c H; simpl in H.
  - inversion H. left. split; [reflexivity | apply connection_steps_refl].
  - unfold bind in H.
    destruct (robust_attempt w cmd n (n - S t) c) as [[r|] c1] eqn:E;
      [|discriminate].
    apply robust_attempt_runs_once in E. destruct r as [v1|].
    + inversion H; subst. exact E.
    + apply IH in H. destruct H as [[-> Hc] | (ca & cb & Hc & Ec & ->)].
      * left. split; [reflexivity|]. eapply connection_steps_trans; eassumption.
      * right. exists ca, cb. split; [|now split].
        eapply connection_steps_trans; eassumption.
Qed.

End RunOnce.

(** ** Volume commands in any state of the connection *)

Section VolumeAnyState.

Variable w : world.

Lemma _set_volume_cases v c :
  (_set_volume w v c = (Ret (PyBool false), c)) \/
  (exists z b, zone_output_id c = Some z /\ str_truthy (Some z) = true /\
               _set_volume w v c =
               (Ret (PyBool b),
                next_tick (record_event (EvSetVolumePercent z (clamp_percent v)) c))).
Proof.
  destruct (zone_output_id c) as [z|] eqn:Hz.
  - destruct (roonapi c) as [h|] eqn:Ha.
    + destruct (str_truthy (Some z)) eqn:Ht.
      * right. exists z. eexists. split; [reflexivity|]. split; [exact Ht|].
        apply _set_volume_bound; congruence.
      * left. unfold _set_volume, bind, gets. now rewrite Hz, Ha, Ht.
    + left. unfold _set_volume, bind, gets. now rewrite Hz, Ha.
  - left. unfold _set_volume, bind, gets. now rewrite Hz.
Qed.

Lemma _set_volume_never_raises v : never_raises (_set_volume w v).
Proof.
  intros c. destruct (_set_volume_cases v c) as [-> | (z & b & _ & _ & ->)];
    simpl; discriminate.
Qed.

Lemma _get_volume_cases c :
  (_get_volume w c = (Ret PyNone, c)) \/
  (exists z r, zone_output_id c = Some z /\ str_truthy (Some z) = true /\
               _get_volume w c =
               (Ret r, next_tick (record_event (EvGetVolumePercent z) c))).
Proof.
  destruct (zone_output_id c) as [z|] eqn:Hz.
  - destruct (roonapi c) as [h|] eqn:Ha.
    + destruct (str_truthy (Some z)) eqn:Ht.
      * right. exists z. eexists. split; [reflexivity|]. split; [exact Ht|].
        apply _get_volume_bound; congruence.
      * left. apply _get_volume_unavailable. left. now rewrite Hz.
    + left. apply _get_volume_unavailable. now right.
  - left. apply _get_volume_unavailable. left. now rewrite Hz.
Qed.

Lemma _get_volume_never_raises : never_raises (_get_volume w).
Proof.
  intros c. destruct (_get_volume_cases c) as [-> | (z & r & _ & _ & ->)];
    simpl; discriminate.
Qed.

End VolumeAnyState.

(** X5: in every state of the connection [set_volume] returns without
    raising and issues at most one [set_volume_percent] call, for the bound
    zone and with the clamped value; besides that call the trace only grows by
    the sleeps and the reconnections of the wrapper, and the result is [True]
    only if the call was issued. *)
Theorem set_volume_issues_at_most_one_call (w : world) (v : Z) (c : controller) :
  exists r c' waits call,
    set_volume w v c = (Ret (PyBool r), c') /\
    trace c' = (trace c ++ waits ++ call)%list /\
    Forall connection_event waits /\
    (call = [] \/
     exists z, zone_output_id c = Some z /\
               call = [EvSetVolumePercent z (clamp_percent v)]) /\
    (r = true -> call <> []).
Proof.
  pose proof (robust_roon_command_never_raises w (_set_volume w v) 3 c) as Hn.
  unfold set_volume.
  destruct (robust_roon_command w (_set_volume w v) 3 c) as [[r|] c'] eqn:E;
    [|now simpl in Hn].
  apply (robust_loop_runs_once w _ (_set_volume_never_raises w v)) in E.
  destruct E as [[-> [[waits [Ht Hf]] _]] | (ca & cb & [[waits [Ht Hf]] [Hz _]] & Ec & ->)].
  - exists false, c', waits, []. rewrite app_nil_r.
    repeat split; auto. discriminate.
  - destruct (_set_volume_cases w v ca) as [E | (z & b & Hza & _ & E)];
      rewrite E in Ec; inversion Ec; subst.
    + exists false. eexists. exists waits, []. rewrite app_nil_r.
      split; [reflexivity|]. repeat split; auto. discriminate.
    + exists b. eexists. exists waits, [EvSetVolumePercent z (clamp_percent v)].
      split; [reflexivity|]. split.
      { simpl. rewrite Ht. now rewrite <- app_assoc. }
      split; [exact Hf|]. split.
      * right. exists z. split; [congruence | reflexivity].
      * intros _. discriminate.
Qed.

(** ** Counting the set_volume_percent calls of a knob action *)

Section CountingCalls.

Variable w : world.

Lemma count_set_volume_app l1 l2 :
  count_set_volume (l1 ++ l2) = (count_set_volume l1 + count_set_volume l2)%nat.
Proof.
  induction l1 as [|e l1 IH]; [reflexivity|].
  destruct e; simpl; rewrite IH; reflexivity.
Qed.

Lemma count_set_volume_none l :
  Forall not_set_volume l -> count_set_volume l = 0%nat.
Proof.
  induction 1 as [|e l He _ IH]; [reflexivity|].
  destruct e; simpl in *; try exact IH. contradiction.
Qed.

Lemma count_set_volume_connection l :
  Forall connection_event l -> count_set_volume l = 0%nat.
Proof.
  induction 1 as [|e l He _ IH]; [reflexivity|].
  destruct e; simpl in *; try exact IH; contradiction.
Qed.

Lemma sets_volume_at_most_compose a b c c1 c2 :
  sets_volume_at_most a c c1 -> sets_volume_at_most b c1 c2 ->
  sets_volume_at_most (a + b) c c2.
Proof.
  intros [l1 [E1 H1]] [l2 [E2 H2]]. exists (l1 ++ l2)%list. split.
  - rewrite E2, E1. now rewrite app_assoc.
  - rewrite count_set_volume_app. lia.
Qed.

Lemma sets_volume_at_most_refl n c : sets_volume_at_most n c c.
Proof. exists []. split; [now rewrite app_nil_r | simpl; lia]. Qed.

Lemma sets_volume_at_most_weaken a b c c' :
  (a <= b)%nat -> sets_volume_at_most a c c' -> sets_volume_at_most b c c'.
Proof. intros Hle [l [E H]]. exists l. split; [exact E | lia]. Qed.

Lemma sets_nothing_at_most c c' :
  trace_grows_by not_set_volume c c' -> sets_volume_at_most 0 c c'.
Proof.
  intros [l [E H]]. exists l. split; [exact E|].
  now rewrite (count_set_volume_none l H).
Qed.

Lemma set_volume_at_most_one v : steps (sets_volume_at_most 1) (set_volume w v).
Proof.
  intros c o c' E. unfold set_volume in E.
  pose proof (robust_roon_command_never_raises w (_set_volume w v) 3 c) as Hn.
  rewrite E in Hn. destruct o as [r|]; [clear Hn | now simpl in Hn].
  apply (robust_loop_runs_once w _ (_set_volume_never_raises w v)) in E.
  destruct E as [[_ [[l [Ht Hf]] _]] | (ca & cb & [[l [Ht Hf]] _] & Ec & ->)].
  - exists l. split; [exact Ht|]. rewrite (count_set_volume_connection l Hf). lia.
  - destruct (_set_volume_cases w v ca) as [E | (z & b & _ & _ & E)];
      rewrite E in Ec; inversion Ec; subst.
    + exists l. split; [exact Ht|].
      rewrite (count_set_volume_connection l Hf). lia.
    + exists (l ++ [EvSetVolumePercent z (clamp_percent v)])%list. split.
      * simpl. rewrite Ht. now rewrite <- app_assoc.
      * rewrite count_set_volume_app, (count_set_volume_connection l Hf).
        simpl. lia.
Qed.

Lemma toggle_playback_sets_nothing :
  steps (trace_grows_by not_set_volume) (toggle_playback w).
Proof.
  apply steps_toggle_playback with (allowed := not_set_volume); solve_grows.
Qed.

Lemma py_add_int_state v d c : snd (py_add_int v d c) = c.
Proof. now destruct v. Qed.

Lemma change_volume_at_most_one d :
  steps (sets_volume_at_most 1) (change_volume w d).
Proof.
  intros c o c' H. unfold change_volume, bind at 1 in H.
  destruct (get_current_volume w c) as [[cur|] c1] eqn:E.
  - pose proof (sets_nothing_at_most _ _
                  (get_current_volume_sets_nothing w _ _ _ E)) as H0.
    assert (Hgo : forall o c',
               (sum <- py_add_int cur d ;;
                done <- set_volume w (clamp_percent sum) ;;
                if py_truthy done then ret true else ret false) c1 = (o, c') ->
               sets_volume_at_most 1 c c').
    { clear H. intros o1 c2 H. unfold bind at 1 in H.
      pose proof (py_add_int_state cur d c1) as Hs.
      destruct (py_add_int cur d c1) as [[sum|] c3]; simpl in Hs; subst c3.
      - unfold bind in H.
        destruct (set_volume w (clamp_percent sum) c1) as [[done|] c4] eqn:Es.
        + pose proof (set_volume_at_most_one _ _ _ _ Es) as H1.
          assert (c2 = c4) by (destruct (py_truthy done); now inversion H).
          subst. exact (sets_volume_at_most_compose 0 1 _ _ _ H0 H1).
        + inversion H; subst.
          exact (sets_volume_at_most_compose 0 1 _ _ _ H0
                   (set_volume_at_most_one _ _ _ _ Es)).
      - inversion H; subst.
        apply (sets_volume_at_most_weaken 0 1); [lia | exact H0]. }
    destruct cur; try (now apply Hgo in H).
    inversion H; subst.
    apply (sets_volume_at_most_weaken 0 1); [lia | exact H0].
  - inversion H; subst.
    apply (sets_volume_at_most_weaken 0 1); [lia|].
    exact (sets_nothing_at_most _ _ (get_current_volume_sets_nothing w _ _ _ E)).
Qed.

Lemma discard_steps {A} (R : controller -> controller -> Prop) (m : M A) :
  steps R m -> steps R (m ;; ret tt).
Proof.
  intros Hm c o c' H. unfold bind in H.
  destruct (m c) as [[a|] c1] eqn:E; inversion H; subst; eapply Hm; exact E.
Qed.

Lemma handle_knob_action_at_most_one action :
  steps (sets_volume_at_most 1) (handle_knob_action w action).
Proof.
  intros c o c' H. unfold handle_knob_action, bind at 1, gets at 1 in H.
  destruct (negb (str_truthy (zone_output_id c))).
  { inversion H. apply sets_volume_at_most_refl. }
  destruct (py_eq_str action "rotate_left").
  { unfold bind at 1, gets at 1 in H.
    exact (discard_steps _ _ (change_volume_at_most_one _) _ _ _ H). }
  destruct (py_eq_str action "rotate_right").
  { unfold bind at 1, gets at 1 in H.
    exact (discard_steps _ _ (change_volume_at_most_one _) _ _ _ H). }
  destruct (py_eq_str action "single").
  { apply (sets_volume_at_most_weaken 0 1); [lia|].
    apply sets_nothing_at_most. exact (toggle_playback_sets_nothing _ _ _ H). }
  destruct (py_eq_str action "double").
  { exact (discard_steps _ _ (set_volume_at_most_one _) _ _ _ H). }
  destruct (py_eq_str action "hold").
  { exact (discard_steps _ _ (set_volume_at_most_one _) _ _ _ H). }
  inversion H. apply sets_volume_at_most_refl.
Qed.

End CountingCalls.

Section HandlerReturns.

Variable w : world.

Lemma _get_volume_value c v c' :
  _get_volume w c = (Ret v, c') -> v = PyNone \/ exists n, v = PyInt n.
Proof.
  intros H.
  destruct (str_truthy (zone_output_id c)) eqn:Ht.
  - destruct (zone_output_id c) as [z|] eqn:Hz; [|discriminate].
    destruct (roonapi c) as [h|] eqn:Ha.
    + rewrite (_get_volume_bound w c z Hz Ht) in H by congruence.
      inversion H.
      destruct (w_get_volume_percent w (tick c) z) as [[n|]|]; simpl; eauto.
    + rewrite (_get_volume_unavailable w c (or_intror Ha)) in H.
      inversion H. now left.
  - rewrite (_get_volume_unavailable w c (or_introl Ht)) in H.
    inversion H. now left.
Qed.






End HandlerReturns.


(** ** The commands with no zone bound *)

Section Unbound.

Variable w : world.

Lemma unbound_steps_refl c : unbound_steps c c.
Proof. intros H. split; [exact H | apply trace_grows_refl]. Qed.

Lemma unbound_steps_trans a b c :
  unbound_steps a b -> unbound_steps b c -> unbound_steps a c.
Proof.
  intros H1 H2 Ha. destruct (H1 Ha) as [Hb G1]. destruct (H2 Hb) as [Hc G2].
  split; [exact Hc | eapply trace_grows_trans; eassumption].
Qed.

Lemma unbound_steps_same c c' :
  zone_output_id c' = zone_output_id c -> trace c' = trace c ->
  unbound_steps c c'.
Proof.
  intros Hz Ht H. split; [now rewrite Hz | now apply trace_grows_same].
Qed.

Lemma unbound_steps_event e c :
  connection_event e -> unbound_steps c (record_event e c).
Proof. intros He H. split; [exact H | now apply trace_grows_event]. Qed.

Lemma unbound_wrapped cmd n :
  steps unbound_steps cmd -> steps unbound_steps (robust_roon_command w cmd n).
Proof.
  intros H. apply steps_robust_roon_command; try exact H.
  - apply unbound_steps_refl.
  - apply unbound_steps_trans.
  - intros c. now apply unbound_steps_same.
  - intros s c. now apply unbound_steps_event.
  - intros c. now apply unbound_steps_event.
  - intros h c. now apply unbound_steps_same.
  - intros b c. now apply unbound_steps_same.
  - intros t c. now apply unbound_steps_same.
Qed.

Lemma unbound__get_volume : steps unbound_steps (_get_volume w).
Proof.
  intros c o c' H Hz.
  rewrite (_get_volume_unavailable w c (or_introl Hz)) in H. inversion H; subst.
  split; [exact Hz | apply trace_grows_refl].
Qed.

Lemma unbound__set_volume v : steps unbound_steps (_set_volume w v).
Proof.
  intros c o c' H Hz.
  destruct (_set_volume_cases w v c) as [E | (z & b & Hzc & Ht & _)].
  - rewrite E in H. inversion H; subst.
    split; [exact Hz | apply trace_grows_refl].
  - rewrite Hzc in Hz. congruence.
Qed.

Lemma _toggle_playback_unbound c :
  str_truthy (zone_output_id c) = false ->
  _toggle_playback w c = (Ret (PyBool false), c).
Proof.
  intros Hz. unfold _toggle_playback, bind at 1 2, gets.
  destruct (zone_output_id c) as [z|] eqn:E; [|reflexivity].
  destruct (roonapi c) as [h|]; [|reflexivity].
  now rewrite Hz.
Qed.

Lemma unbound__toggle_playback : steps unbound_steps (_toggle_playback w).
Proof.
  intros c o c' H Hz. rewrite (_toggle_playback_unbound c Hz) in H.
  inversion H; subst. split; [exact Hz | apply trace_grows_refl].
Qed.

Lemma unbound_change_volume d : steps unbound_steps (change_volume w d).
Proof.
  unfold change_volume.
  apply steps_bind; [apply unbound_steps_trans | |].
  - apply unbound_wrapped, unbound__get_volume.
  - intros current.
    assert (H : steps unbound_steps
                  (sum <- py_add_int current d ;;
                   done <- set_volume w (clamp_percent sum) ;;
                   if py_truthy done then ret true else ret false)).
    { apply steps_bind; [apply unbound_steps_trans | |].
      - destruct current; simpl;
          first [apply steps_ret | apply steps_raise]; apply unbound_steps_refl.
      - intros sum. apply steps_bind; [apply unbound_steps_trans | |].
        + apply unbound_wrapped, unbound__set_volume.
        + intros done. destruct (py_truthy done);
            apply steps_ret, unbound_steps_refl. }
    destruct current; try exact H. apply steps_ret, unbound_steps_refl.
Qed.

End Unbound.

(** X7: called with no zone bound, as the web routes can call them, the
    volume read, [set_volume], [change_volume] and [toggle_playback] issue no
    call to the control service: the trace only grows by the sleeps and the
    reconnections of the retry wrapper. *)
Theorem commands_without_zone_issue_no_call (w : world) (c : controller) :
  str_truthy (zone_output_id c) = false ->
  (forall o c', get_current_volume w c = (o, c') ->
                trace_grows_by connection_event c c') /\
  (forall v o c', set_volume w v c = (o, c') ->
                  trace_grows_by connection_event c c') /\
  (forall d o c', change_volume w d c = (o, c') ->
                  trace_grows_by connection_event c c') /\
  (forall o c', toggle_playback w c = (o, c') ->
                trace_grows_by connection_event c c').
Proof.
  intros Hz. repeat split.
  - intros o c' E.
    exact (proj2 (unbound_wrapped w _ 3 (unbound__get_volume w) _ _ _ E Hz)).
  - intros v o c' E.
    exact (proj2 (unbound_wrapped w _ 3 (unbound__set_volume w v) _ _ _ E Hz)).
  - intros d o c' E.
    exact (proj2 (unbound_change_volume w d _ _ _ E Hz)).
  - intros o c' E. unfold toggle_playback, bind in E.
    destruct (robust_roon_command w (_toggle_playback w) 3 c) as [[r|] c1] eqn:Er;
      inversion E; subst;
      exact (proj2 (unbound_wrapped w _ 3 (unbound__toggle_playback w) _ _ _ Er Hz)).
Qed.

Lemma commands_without_zone_issue_no_call_witness :
  trace_grows_by connection_event fresh_controller
    (snd (set_volume unauthorized_world 75 fresh_controller)) /\
  trace_grows_by connection_event fresh_controller
    (snd (toggle_playback unauthorized_world fresh_controller)).
Proof.
  split.
  - apply (proj1 (proj2 (commands_without_zone_issue_no_call
                           unauthorized_world fresh_controller eq_refl))
             75 (fst (set_volume unauthorized_world 75 fresh_controller))).
    apply surjective_pairing.
  - apply (proj2 (proj2 (proj2 (commands_without_zone_issue_no_call
                                  unauthorized_world fresh_controller eq_refl)))
             (fst (toggle_playback unauthorized_world fresh_controller))).
    apply surjective_pairing.
Defined.

(** ** toggle_playback *)

Section Toggle.

Variable w : world.

Lemma _toggle_playback_zone c z zs zid info :
  zone_output_id c = Some z -> str_truthy (Some z) = true -> roonapi c <> None ->
  w_zones w (tick c) = Ret (Some zs) ->
  find (zone_has_output z) zs = Some (zid, info) -> zid <> "" ->
  exists r c',
    _toggle_playback w c = (Ret r, c') /\
    trace c' =
    (trace c ++
     if w_playback_control w (S (tick c)) zid (first_verb info)
     then [EvPlaybackControl zid (first_verb info)]
     else [EvPlaybackControl zid (first_verb info);
           EvPlaybackControl zid "playpause"])%list.
Proof.
  intros Hz Ht Ha Hw Hf Hne.
  unfold _toggle_playback, bind at 1 2, gets. rewrite Hz.
  destruct (roonapi c) as [h|]; [|congruence]. rewrite Ht.
  unfold roonapi_zones, consult_or_raise, consult, bind at 1 2. rewrite Hw.
  unfold ret at 1. cbv beta iota. rewrite Hf.
  apply String.eqb_neq in Hne. rewrite Hne. simpl negb. cbv iota.
  unfold first_verb.
  destruct (zone_state info) as [state|]; [destruct (String.eqb state "playing")|];
    unfold try_except, roonapi_playback_control, perform, consult, bind, modify,
      ret, raise; simpl;
    match goal with |- context [w_playback_control w (S (tick c)) zid ?v] =>
      destruct (w_playback_control w (S (tick c)) zid v) end;
    simpl;
    try match goal with |- context [w_playback_control w (S (S (tick c))) zid ?v] =>
      destruct (w_playback_control w (S (S (tick c))) zid v) end;
    simpl; eexists; eexists; (split; [reflexivity|]); simpl;
    rewrite <- ?app_assoc; reflexivity.
Qed.

Lemma _toggle_playback_no_zone c z zs :
  zone_output_id c = Some z -> str_truthy (Some z) = true -> roonapi c <> None ->
  w_zones w (tick c) = Ret (Some zs) ->
  find (zone_has_output z) zs = None ->
  _toggle_playback w c = (Ret (PyBool false), next_tick c).
Proof.
  intros Hz Ht Ha Hw Hf.
  unfold _toggle_playback, bind at 1 2, gets. rewrite Hz.
  destruct (roonapi c) as [h|]; [|congruence]. rewrite Ht.
  unfold roonapi_zones, consult_or_raise, consult, bind. rewrite Hw.
  unfold ret at 1. cbv beta iota. now rewrite Hf.
Qed.

End Toggle.

(** X8: with a zone bound, the API object in place and the zones enumerated,
    [toggle_playback] addresses the first zone that lists the bound output:
    it sends [pause] when that zone reports [playing] and [play] in every
    other case, once; only when that call raises it sends [playpause] as
    well, once, and nothing more whether or not that one raises. *)
Theorem toggle_playback_sends_one_verb_then_fallback
    (w : world) (c : controller) (z : string) (zs : zones_t)
    (zid : string) (info : zone_info) :
  zone_output_id c = Some z -> z <> "" -> roonapi c <> None ->
  w_zones w (tick c) = Ret (Some zs) ->
  find (zone_has_output z) zs = Some (zid, info) -> zid <> "" ->
  exists c',
    toggle_playback w c = (Ret tt, c') /\
    trace c' =
    (trace c ++
     if w_playback_control w (S (tick c)) zid (first_verb info)
     then [EvPlaybackControl zid (first_verb info)]
     else [EvPlaybackControl zid (first_verb info);
           EvPlaybackControl zid "playpause"])%list.
Proof.
  intros Hz Hne Ha Hw Hf Hzid.
  destruct (_toggle_playback_zone w c z zs zid info Hz (str_truthy_some z Hne)
              Ha Hw Hf Hzid) as (r & c1 & E & Ht).
  exists (mark_success w c1). unfold toggle_playback.
  rewrite (bind_run _ _ _ _ _
             (robust_roon_command_first_try w _ 2 c r c1 Ha E)).
  split; [reflexivity | exact Ht].
Qed.

Lemma toggle_playback_sends_one_verb_then_fallback_witness :
  (exists c',
      toggle_playback (steady_world kitchen_outputs kitchen_zones (fun _ => true))
        kitchen_controller = (Ret tt, c') /\
      trace c' = [EvPlaybackControl "z1" "pause"]) /\
  (exists c',
      toggle_playback (steady_world kitchen_outputs kitchen_zones (fun _ => false))
        kitchen_controller = (Ret tt, c') /\
      trace c' = [EvPlaybackControl "z1" "pause"; EvPlaybackControl "z1" "playpause"]).
Proof.
  split.
  - refine (toggle_playback_sends_one_verb_then_fallback
              (steady_world kitchen_outputs kitchen_zones (fun _ => true))
              kitchen_controller "o2" kitchen_zones "z1"
              {| zone_state := Some "playing"; zone_outputs := ["o1"; "o2"] |}
              _ _ _ _ _ _); vm_compute; solve [reflexivity | discriminate].
  - refine (toggle_playback_sends_one_verb_then_fallback
              (steady_world kitchen_outputs kitchen_zones (fun _ => false))
              kitchen_controller "o2" kitchen_zones "z1"
              {| zone_state := Some "playing"; zone_outputs := ["o1"; "o2"] |}
              _ _ _ _ _ _); vm_compute; solve [reflexivity | discriminate].
Defined.

(** X9: when no enumerated zone lists the bound output, [toggle_playback]
    sends no playback command at all and is not retried: nothing is added to
    the trace. *)
Theorem toggle_playback_without_group_sends_nothing
    (w : world) (c : controller) (z : string) (zs : zones_t) :
  zone_output_id c = Some z -> z <> "" -> roonapi c <> None ->
  w_zones w (tick c) = Ret (Some zs) ->
  find (zone_has_output z) zs = None ->
  exists c', toggle_playback w c = (Ret tt, c') /\ trace c' = trace c.
Proof.
  intros Hz Hne Ha Hw Hf.
  exists (mark_success w (next_tick c)). unfold toggle_playback.
  rewrite (bind_run _ _ _ _ _
             (robust_roon_command_first_try w _ 2 c _ _ Ha
                (_toggle_playback_no_zone w c z zs Hz (str_truthy_some z Hne)
                   Ha Hw Hf))).
  split; reflexivity.
Qed.

Lemma toggle_playback_without_group_sends_nothing_witness :
  exists c',
    toggle_playback (steady_world kitchen_outputs [] (fun _ => true))
      kitchen_controller = (Ret tt, c') /\
    trace c' = trace kitchen_controller.
Proof.
  refine (toggle_playback_without_group_sends_nothing
            (steady_world kitchen_outputs [] (fun _ => true))
            kitchen_controller "o2" [] _ _ _ _ _);
    vm_compute; solve [reflexivity | discriminate].
Defined.

(** ** Unrecognised actions *)

Lemma py_eq_str_false action s : action <> PyStr s -> py_eq_str action s = false.
Proof.
  intros H. destruct action; try reflexivity. simpl.
  apply String.eqb_neq. intros E. apply H. now rewrite E.
Qed.

(** X10: an action value that is none of the five action strings, such as
    the empty string or [None], changes nothing, with or without a zone
    bound: the handler returns the controller as it was. *)
Theorem handle_knob_action_ignores_unknown_action
    (w : world) (action : pyval) (c : controller) :
  (forall s, In s ["rotate_left"; "rotate_right"; "single"; "double"; "hold"] ->
             action <> PyStr s) ->
  handle_knob_action w action c = (Ret tt, c).
Proof.
  intros H. unfold handle_knob_action, bind at 1, gets at 1.
  destruct (negb (str_truthy (zone_output_id c))); [reflexivity|].
  rewrite !py_eq_str_false; [reflexivity | | | | |];
    apply H; simpl; tauto.
Qed.

Lemma handle_knob_action_ignores_unknown_action_witness :
  handle_knob_action (scripted_world 0 0 (Some 40)) (PyStr "") kitchen_controller =
  (Ret tt, kitchen_controller).
Proof.
  apply (handle_knob_action_ignores_unknown_action
           (scripted_world 0 0 (Some 40)) (PyStr "") kitchen_controller).
  intros s Hs. simpl in Hs.
  destruct Hs as [<- | [<- | [<- | [<- | [<- | []]]]]]; discriminate.
Defined.

(** ** find_zone_output_id over its retries *)

Section ResolutionRetries.

Variable w : world.




(** With the API object in place and an enumeration that never has the zone,
    the loop sleeps between its attempts and ends with [None]. *)
Lemma find_zone_loop_exhausts zone_id zone_name retries wait_time todo c :
  (todo <= retries)%nat -> roonapi c <> None ->
  (forall t, exists outs, w_outputs w t = Ret (Some outs) /\
                          lookup_zone zone_id zone_name outs = None) ->
  exists c',
    find_zone_loop w zone_id zone_name retries wait_time todo c = (Ret None, c') /\
    trace c' = (trace c ++ repeat (EvSleep wait_time) (todo - 1))%list.
Proof.
  intros Hle Ha Hw. revert c Ha.
  induction todo as [|t IH]; intros c Ha.
  - exists c. split; [reflexivity | now rewrite app_nil_r].
  - simpl find_zone_loop.
    destruct (Hw (tick c)) as (outs & Ho & Hl).
    pose proof (_find_zone_run w zone_id zone_name c outs Ha Ho) as Hrun.
    rewrite Hl in Hrun. simpl in Hrun.
    rewrite (bind_run _ _ _ _ _
               (robust_roon_command_first_try w _ 2 c _ _ Ha Hrun)).
    simpl py_truthy. cbv iota.
    destruct t as [|t].
    + assert (E : (retries - 1 <? retries - 1)%nat = false) by apply Nat.ltb_irrefl.
      rewrite E. eexists. split; [reflexivity|]. simpl. now rewrite app_nil_r.
    + assert (E : (retries - S (S t) <? retries - 1)%nat = true)
        by (apply Nat.ltb_lt; lia).
      rewrite E. unfold bind, time_sleep, modify.
      destruct (IH ltac:(lia)
                  (record_event (EvSleep wait_time) (mark_success w (next_tick c))))
        as (c' & E' & Ht).
      { simpl. exact Ha. }
      exists c'. split; [exact E'|].
      rewrite Ht. simpl. rewrite Nat.sub_0_r, <- app_assoc. reflexivity.
Qed.

End ResolutionRetries.

(** X11: with the API object in place and an enumeration that never has the
    wanted zone, [find_zone_output_id] ends with [None] after its [retries]
    attempts, having slept [wait_time] seconds between consecutive attempts
    and not after the last one: [retries - 1] sleeps and nothing else in the
    trace. *)
Theorem find_zone_output_id_gives_up_after_retries
    (w : world) (zone_id zone_name : option string) (retries : nat)
    (wait_time : Z) (c : controller) :
  roonapi c <> None ->
  (forall t, exists outs, w_outputs w t = Ret (Some outs) /\
                          lookup_zone zone_id zone_name outs = None) ->
  exists c',
    find_zone_output_id w zone_id zone_name retries wait_time c = (Ret None, c') /\
    trace c' = (trace c ++ repeat (EvSleep wait_time) (retries - 1))%list.
Proof.
  intros Ha Hw.
  exact (find_zone_loop_exhausts w zone_id zone_name retries wait_time retries c
           (le_n _) Ha Hw).
Qed.

Lemma find_zone_output_id_gives_up_after_retries_witness :
  exists c',
    find_zone_output_id (steady_world kitchen_outputs kitchen_zones (fun _ => true))
      (Some "o9") (Some "Attic") 5 2 kitchen_controller = (Ret None, c') /\
    trace c' = [EvSleep 2; EvSleep 2; EvSleep 2; EvSleep 2].
Proof.
  apply (find_zone_output_id_gives_up_after_retries
           (steady_world kitchen_outputs kitchen_zones (fun _ => true))
           (Some "o9") (Some "Attic") 5 2 kitchen_controller).
  - discriminate.
  - intros t. exists kitchen_outputs. split; reflexivity.
Defined.



(** ** on_mqtt_message on records *)

Section Records.

Variable w : world.

Lemma existsb_find_key key (d : list (string * pyval)) :
  existsb (fun kv => String.eqb key (fst kv)) d =
  match dict_get key d with Some _ => true | None => false end.
Proof.
  unfold dict_get. induction d as [|[k v] d IH]; [reflexivity|].
  simpl. destruct (String.eqb key k); [reflexivity | exact IH].
Qed.

(** [if key in payload: store(payload[key])] on a dict. *)
Lemma when_present_dict key d store c :
  when_present key (PyDict d) store c =
  match dict_get key d with
  | Some v => store v c
  | None => (Ret tt, c)
  end.
Proof.
  unfold when_present, bind at 1, py_contains, ret at 1.
  rewrite existsb_find_key. unfold dict_get, py_getitem.
  destruct (find (fun kv => String.eqb key (fst kv)) d) as [[k v]|];
    reflexivity.
Qed.

Lemma store_when_present key d setter (k : M unit) c :
  (when_present key (PyDict d) (fun v => modify (setter v)) ;; k) c =
  k (store_if_present key d setter c).
Proof.
  unfold bind. rewrite when_present_dict. unfold store_if_present.
  now destruct (dict_get key d).
Qed.

Lemma with_telemetry_recorded d c : telemetry_recorded w d c (with_telemetry w d c).
Proof.
  unfold telemetry_recorded, with_telemetry, store_if_present, taken_from.
  destruct (dict_get "battery" d), (dict_get "voltage" d),
    (dict_get "linkquality" d); repeat split; reflexivity.
Qed.

(** Lines 485-498 on a payload that decodes to the record [d], followed by
    what is done with the action. *)
Lemma on_mqtt_message_record dispatch json_loads raw d c :
  json_loads raw = Ret (PyDict d) ->
  on_mqtt_message_with w dispatch json_loads raw c =
  try_except (when_present "action" (PyDict d) dispatch) (ret tt)
    (with_telemetry w d c).
Proof.
  intros Hd. unfold on_mqtt_message_with, try_except.
  rewrite (bind_run _ _ c (PyDict d) c) by (now rewrite Hd).
  rewrite (bind_run _ _ c (w_time w (tick c)) (next_tick c)) by reflexivity.
  rewrite (bind_run _ _ (next_tick c) tt
             (set_knob_last_seen (Some (w_time w (tick c))) (next_tick c)))
    by reflexivity.
  rewrite !store_when_present. reflexivity.
Qed.

End Records.

(** X13: a payload that decodes to a record with no action stores the arrival
    time as last-seen and overwrites battery, voltage and link quality with
    the record's entries, each only if the record has it; nothing else in the
    controller changes, no call is issued, and the action handler, whatever
    it is, is not called. *)
Theorem on_mqtt_message_stores_telemetry
    (w : world) (dispatch : pyval -> M unit)
    (json_loads : string -> outcome pyval) (raw : string)
    (d : list (string * pyval)) (c : controller) :
  json_loads raw = Ret (PyDict d) -> dict_get "action" d = None ->
  exists c1,
    on_mqtt_message_with w dispatch json_loads raw c = (Ret tt, c1) /\
    telemetry_recorded w d c c1.
Proof.
  intros Hd Ha. exists (with_telemetry w d c).
  rewrite (on_mqtt_message_record w dispatch json_loads raw d c Hd).
  unfold try_except. rewrite when_present_dict, Ha.
  split; [reflexivity | apply with_telemetry_recorded].
Qed.

Lemma on_mqtt_message_stores_telemetry_witness :
  exists c1,
    on_mqtt_message (scripted_world 0 0 (Some 40))
      (decodes_to "status" [("battery", PyInt 80); ("linkquality", PyInt 120)])
      "status" kitchen_controller = (Ret tt, c1) /\
    telemetry_recorded (scripted_world 0 0 (Some 40))
      [("battery", PyInt 80); ("linkquality", PyInt 120)] kitchen_controller c1.
Proof.
  apply (on_mqtt_message_stores_telemetry (scripted_world 0 0 (Some 40))
           (handle_knob_action (scripted_world 0 0 (Some 40)))
           (decodes_to "status" [("battery", PyInt 80); ("linkquality", PyInt 120)])
           "status" [("battery", PyInt 80); ("linkquality", PyInt 120)]
           kitchen_controller); reflexivity.
Defined.

(** X14: a payload that decodes to a record with an action first stores the
    telemetry of the record and then hands the action to the action handler
    in that state; the message handler returns normally with the state the
    action handler left, also when the action handler raises. *)
Theorem on_mqtt_message_stores_telemetry_then_dispatches
    (w : world) (dispatch : pyval -> M unit)
    (json_loads : string -> outcome pyval) (raw : string)
    (d : list (string * pyval)) (action : pyval) (c : controller) :
  json_loads raw = Ret (PyDict d) -> dict_get "action" d = Some action ->
  exists c1,
    telemetry_recorded w d c c1 /\
    on_mqtt_message_with w dispatch json_loads raw c =
      (Ret tt, snd (dispatch action c1)) /\
    on_mqtt_message w json_loads raw c =
      (Ret tt, snd (handle_knob_action w action c1)).
Proof.
  intros Hd Ha. exists (with_telemetry w d c).
  split; [apply with_telemetry_recorded|].
  unfold on_mqtt_message.
  rewrite !(on_mqtt_message_record w _ json_loads raw d c Hd).
  unfold try_except. rewrite !when_present_dict, Ha.
  split.
  - destruct (dispatch action (with_telemetry w d c)) as [[[]|] c2]; reflexivity.
  - destruct (handle_knob_action w action (with_telemetry w d c)) as [[[]|] c2];
      reflexivity.
Qed.

Lemma on_mqtt_message_stores_telemetry_then_dispatches_witness :
  let w := scripted_world 0 0 (Some 40) in
  let d := [("action", PyStr "double"); ("battery", PyInt 80)] in
  exists c1,
    telemetry_recorded w d kitchen_controller c1 /\
    on_mqtt_message_with w (fun _ => raise) (decodes_to "press" d) "press"
      kitchen_controller = (Ret tt, snd (@raise unit c1)) /\
    on_mqtt_message w (decodes_to "press" d) "press" kitchen_controller =
      (Ret tt, snd (handle_knob_action w (PyStr "double") c1)).
Proof.
  intros w d.
  apply (on_mqtt_message_stores_telemetry_then_dispatches w (fun _ => raise)
           (decodes_to "press" d) "press" d (PyStr "double") kitchen_controller);
    reflexivity.
Defined.

Section AnyMessage.

Variable w : world.

Lemma on_mqtt_message_returns json_loads raw c :
  exists c', on_mqtt_message w json_loads raw c = (Ret tt, c').
Proof.
  unfold on_mqtt_message, on_mqtt_message_with, try_except.
  match goal with |- context [match ?b c with _ => _ end] =>
    destruct (b c) as [[[]|] c1] end; eexists; reflexivity.
Qed.

Lemma on_mqtt_message_clamped json_loads raw :
  steps (trace_grows_by clamped_event) (on_mqtt_message w json_loads raw).
Proof.
  apply steps_on_mqtt_message; try solve_grows.
  apply handle_knob_action_clamped.
Qed.

Lemma sets_volume_at_most_same n c c' :
  trace c' = trace c -> sets_volume_at_most n c c'.
Proof. intros H. exists []. split; [now rewrite app_nil_r | simpl; lia]. Qed.

Lemma sets_volume_at_most_from n c c1 c' :
  trace c1 = trace c -> sets_volume_at_most n c1 c' -> sets_volume_at_most n c c'.
Proof. intros H [l [E Hl]]. exists l. split; [now rewrite <- H | exact Hl]. Qed.

Lemma on_mqtt_message_at_most_one json_loads raw c :
  sets_volume_at_most 1 c (snd (on_mqtt_message w json_loads raw c)).
Proof.
  destruct (json_loads raw) as [payload|] eqn:Hd.
  - destruct payload as [| b | n | s | l | d];
      try (unfold on_mqtt_message;
           rewrite (on_mqtt_message_not_a_record w _ json_loads raw _ c Hd I);
           now apply sets_volume_at_most_same).
    unfold on_mqtt_message.
    rewrite (on_mqtt_message_record w _ json_loads raw d c Hd).
    unfold try_except. rewrite when_present_dict.
    assert (Ht : trace (with_telemetry w d c) = trace c)
      by apply (with_telemetry_recorded w d c).
    destruct (dict_get "action" d) as [action|].
    + destruct (handle_knob_action w action (with_telemetry w d c))
        as [[u|] c2] eqn:E; simpl;
        apply (sets_volume_at_most_from 1 c _ c2 Ht);
        exact (handle_knob_action_at_most_one w action _ _ _ E).
    + simpl. now apply sets_volume_at_most_same.
  - unfold on_mqtt_message, on_mqtt_message_with, try_except, bind at 1.
    rewrite Hd. simpl. now apply sets_volume_at_most_same.
Qed.

End AnyMessage.

(** X15: whatever the payload and however it decodes, the message handler
    returns without raising; while it runs at most one [set_volume_percent]
    call is issued, any such call carries a value between 0 and 100, the
    bound zone and the settings are left as they were, and an API object that
    was there stays. *)
Theorem on_mqtt_message_never_raises_and_is_bounded
    (w : world) (json_loads : string -> outcome pyval) (raw : string)
    (c : controller) :
  exists c',
    on_mqtt_message w json_loads raw c = (Ret tt, c') /\
    sets_volume_at_most 1 c c' /\
    trace_grows_by clamped_event c c' /\
    keeps_binding c c' /\
    keeps_api c c'.
Proof.
  destruct (on_mqtt_message_returns w json_loads raw c) as (c' & E).
  exists c'. split; [exact E|]. split; [|split; [|split]].
  - pose proof (on_mqtt_message_at_most_one w json_loads raw c) as H.
    now rewrite E in H.
  - exact (on_mqtt_message_clamped w json_loads raw _ _ _ E).
  - revert E. apply steps_on_mqtt_message; try solve_keeps_binding.
    apply handle_knob_action_keeps_binding.
  - revert E. apply steps_on_mqtt_message; try solve_keeps_api.
    apply handle_knob_action_keeps_api.
Qed.

(** ** get_zones *)

Section Zones.

Variable w : world.




End Zones.


(** ** load_config *)

Lemma dict_get_app key (d : list (string * pyval)) k v :
  dict_get key (d ++ [(k, v)]) =
  match dict_get key d with
  | Some x => Some x
  | None => if String.eqb key k then Some v else None
  end.
Proof.
  unfold dict_get. induction d as [|[k1 v1] d IH]; simpl.
  - now destruct (String.eqb key k).
  - destruct (String.eqb key k1); [reflexivity | exact IH].
Qed.

Lemma dict_get_cons key k v (d : list (string * pyval)) :
  dict_get key ((k, v) :: d) = if String.eqb key k then Some v else dict_get key d.
Proof. unfold dict_get. simpl. now destruct (String.eqb key k). Qed.

(** Merging defaults into a dict: the dict's own entries stay, the missing
    keys get the default values. *)
Lemma merge_defaults_dict defaults d :
  exists merged,
    merge_defaults defaults (PyDict d) = Ret (PyDict merged) /\
    forall key,
      dict_get key merged =
      match dict_get key d with
      | Some v => Some v
      | None => dict_get key defaults
      end.
Proof.
  revert d. induction defaults as [|[k v] more IH]; intros d.
  - exists d. split; [reflexivity|]. intros key. now destruct (dict_get key d).
  - simpl merge_defaults. rewrite existsb_find_key.
    destruct (dict_get k d) as [x|] eqn:Ek.
    + destruct (IH d) as (merged & E & H). exists merged. split; [exact E|].
      intros key. rewrite H, dict_get_cons.
      destruct (dict_get key d) eqn:Eg; [reflexivity|].
      destruct (String.eqb key k) eqn:Ee; [|reflexivity].
      apply String.eqb_eq in Ee. subst. congruence.
    + destruct (IH (d ++ [(k, v)])%list) as (merged & E & H).
      exists merged. split; [exact E|].
      intros key. rewrite H, dict_get_app, dict_get_cons.
      destruct (dict_get key d); [reflexivity|].
      now destruct (String.eqb key k).
Qed.

(** X17: loading a config file that holds a record returns that record with
    every key of the defaults filled in: an entry of the file wins over the
    default, a key the file lacks gets the default value, keys unknown to the
    defaults are kept; the file is left as it is. *)
Theorem load_config_fills_missing_keys
    (json_load : string -> outcome pyval) (json_dump : settings -> string)
    (fs : write_result) (text : string) (d : list (string * pyval)) :
  json_load text = Ret (PyDict d) ->
  exists merged,
    load_config json_load json_dump true fs (Some text) =
      (PyDict merged, Some text) /\
    forall key,
      dict_get key merged =
      match dict_get key d with
      | Some v => Some v
      | None => dict_get key (dict_of_settings default_config)
      end.
Proof.
  intros Hd.
  destruct (merge_defaults_dict (dict_of_settings default_config) d)
    as (merged & E & H).
  exists merged. split; [|exact H].
  unfold load_config. now rewrite Hd, E.
Qed.

Lemma load_config_fills_missing_keys_witness :
  exists merged,
    load_config (decodes_to "saved" [("volume", PyInt 30); ("room", PyStr "den")])
      json_dump_plain true WriteCompletes (Some "saved") =
      (PyDict merged, Some "saved") /\
    forall key,
      dict_get key merged =
      match dict_get key [("volume", PyInt 30); ("room", PyStr "den")] with
      | Some v => Some v
      | None => dict_get key (dict_of_settings default_config)
      end.
Proof.
  apply (load_config_fills_missing_keys
           (decodes_to "saved" [("volume", PyInt 30); ("room", PyStr "den")])
           json_dump_plain WriteCompletes "saved"
           [("volume", PyInt 30); ("room", PyStr "den")]).
  reflexivity.
Defined.

(** X18: a first start round trip.  With no config file, [load_config]
    returns the defaults and, when the write goes through, leaves a file
    with their text; if [json.load] reads that text back as the defaults,
    loading again returns the same defaults and leaves the file alone. *)
Theorem load_config_first_start_round_trip
    (json_load : string -> outcome pyval) (json_dump : settings -> string) :
  json_load (json_dump default_config) =
    Ret (PyDict (dict_of_settings default_config)) ->
  let first := load_config json_load json_dump true WriteCompletes None in
  first = (PyDict (dict_of_settings default_config),
           Some (json_dump default_config)) /\
  forall fs, load_config json_load json_dump true fs (snd first) = first.
Proof.
  intros H. split; [reflexivity|].
  intros fs. simpl. unfold load_config. rewrite H. reflexivity.
Qed.

Lemma load_config_first_start_round_trip_witness :
  let json_load := decodes_to (json_dump_plain default_config)
                     (dict_of_settings default_config) in
  let first := load_config json_load json_dump_plain true WriteCompletes None in
  first = (PyDict (dict_of_settings default_config),
           Some (json_dump_plain default_config)) /\
  forall fs, load_config json_load json_dump_plain true fs (snd first) = first.
Proof.
  intros json_load.
  apply (load_config_first_start_round_trip json_load json_dump_plain).
  vm_compute. reflexivity.
Defined.

Lemma merge_defaults_not_a_record defaults v r :
  not_a_record v -> merge_defaults defaults v = Ret r -> r = v.
Proof.
  intros Hn. induction defaults as [|[k x] more IH]; simpl.
  - intros H. now inversion H.
  - destruct v; simpl in *; try discriminate; try contradiction.
    + destruct (py_str_in k s); [exact IH | discriminate].
    + destruct (existsb _ items); [exact IH | discriminate].
Qed.

(** X19: [load_config] never modifies a config file that exists, and it
    falls back to the defaults when the file cannot be opened, when decoding
    it raises, and when it decodes to [None], a boolean or a number. *)
Theorem load_config_falls_back_to_defaults
    (json_load : string -> outcome pyval) (json_dump : settings -> string)
    (readable : bool) (fs : write_result) (text : string) :
  snd (load_config json_load json_dump readable fs (Some text)) = Some text /\
  ((readable = false \/ json_load text = Exc \/
    json_load text = Ret PyNone \/
    (exists b, json_load text = Ret (PyBool b)) \/
    (exists n, json_load text = Ret (PyInt n))) ->
   fst (load_config json_load json_dump readable fs (Some text)) =
   PyDict (dict_of_settings default_config)).
Proof.
  split.
  - unfold load_config. destruct readable; [|reflexivity].
    destruct (json_load text) as [v|]; [|reflexivity].
    now destruct (merge_defaults (dict_of_settings default_config) v).
  - unfold load_config.
    intros [-> | [H | [H | [[b H] | [n H]]]]]; [reflexivity | | | |];
      destruct readable; try reflexivity; now rewrite H.
Qed.

(** ** run_service_mode up to the MQTT setup *)

Section Startup.

Variable w : world.





End Startup.


(** X21: in every state of the connection the volume read returns without
    raising; it hands back [None], a number, or the wrapper's [False]; it
    issues at most one [get_volume_percent] call, for the bound zone, and no
    other call to the control service; and a number is only handed back when
    that call was issued. *)
Theorem get_current_volume_reads_at_most_once (w : world) (c : controller) :
  exists v c' waits call,
    get_current_volume w c = (Ret v, c') /\
    (v = PyNone \/ v = PyBool false \/ exists n, v = PyInt n) /\
    trace c' = (trace c ++ waits ++ call)%list /\
    Forall connection_event waits /\
    (call = [] \/
     exists z, zone_output_id c = Some z /\ call = [EvGetVolumePercent z]) /\
    (forall n, v = PyInt n -> call <> []).
Proof.
  pose proof (robust_roon_command_never_raises w (_get_volume w) 3 c) as Hn.
  unfold get_current_volume.
  destruct (robust_roon_command w (_get_volume w) 3 c) as [[v|] c'] eqn:E;
    [|now simpl in Hn].
  apply (robust_loop_runs_once w _ (_get_volume_never_raises w)) in E.
  destruct E as [[-> [[waits [Ht Hf]] _]] | (ca & cb & [[waits [Ht Hf]] [Hz _]] & Ec & ->)].
  - exists (PyBool false), c', waits, []. rewrite app_nil_r.
    split; [reflexivity|]. split; [right; now left|].
    repeat split; auto. intros n H. discriminate.
  - pose proof (_get_volume_value w _ _ _ Ec) as Hv.
    destruct (_get_volume_cases w ca) as [E | (z & r & Hza & _ & E)];
      rewrite E in Ec; inversion Ec; subst.
    + eexists. eexists. exists waits, []. rewrite app_nil_r.
      split; [reflexivity|]. split; [now left|].
      repeat split; auto. intros n H. discriminate.
    + eexists. eexists. exists waits, [EvGetVolumePercent z].
      split; [reflexivity|]. split.
      { destruct Hv as [-> | Hv]; [now left | now right; right]. }
      split.
      { simpl. rewrite Ht. now rewrite <- app_assoc. }
      split; [exact Hf|]. split.
      * right. exists z. split; [congruence | reflexivity].
      * intros n _. discriminate.
Qed.
